(** * Zen-AI-Fax backend: the HTTP gateway of [app.js]

    A shallow embedding of the four route handlers of [app.js] and of
    the multer disk-storage callback, together with the properties of
    the upload and read paths.

    The handlers are written as small programs over the external calls
    they make (every [await], plus [uuidv4], [process.env] and
    [console.error]); a call either returns a value or throws.  The
    programs are run against a world made of the two relational
    tables, the upload directory and a trace of the calls made: one
    request at a time ([serve]), or interleaved at their calls as the
    event loop does ([step]).

    [services/db.js], [services/azureBlob.js] and
    [services/analyzer.js] are not among the sources.  The store is
    modelled from its specification; the blob service and the analyzer
    are arbitrary. *)

From Stdlib Require Import ZArith NArith String Ascii PrimFloat DecimalString.
From Stdlib Require DecimalPos DecimalN.
From stdpp Require Import base option list gmap strings relations.

Local Open Scope string_scope.
Local Open Scope list_scope.

(* ================================================================== *)
(** * JavaScript values *)

(** A JavaScript string is a sequence of UTF-16 code units. *)
Abbreviation jsstring := (list N).

(** The code units of an ASCII literal. *)
Fixpoint js (s : string) : jsstring :=
  match s with
  | EmptyString => []
  | String a s' => N_of_ascii a :: js s'
  end.

(** [String(n)] for a non-negative integer [n] below [1e21], as
    [Date.now()] is: its decimal digits. *)
Definition decimal (n : N) : jsstring :=
  js (NilZero.string_of_uint (N.to_uint n)).

(** The characters matched by the regular-expression class [\s]:
    ECMAScript WhiteSpace and LineTerminator. *)
Definition is_ws (c : N) : bool :=
  ((9 <=? c) && (c <=? 13)           (* TAB LF VT FF CR *)
   || (c =? 32)                      (* SPACE *)
   || (c =? 160)                     (* NO-BREAK SPACE *)
   || (c =? 5760)                    (* U+1680 *)
   || (8192 <=? c) && (c <=? 8202)   (* U+2000 .. U+200A *)
   || (c =? 8232) || (c =? 8233)     (* U+2028, U+2029 *)
   || (c =? 8239) || (c =? 8287)     (* U+202F, U+205F *)
   || (c =? 12288)                   (* U+3000 *)
   || (c =? 65279))%N.               (* U+FEFF *)

Definition underscore : N := 95.

(** [s.replace(/\s+/g, '_')]: scanning from the left, every match of
    [\s+] (which is greedy, so a whole run of whitespace) is replaced by
    one underscore; the underscore is emitted where the run ends. *)
Fixpoint replace_ws (s : jsstring) : jsstring :=
  match s with
  | [] => []
  | c :: s' =>
      if is_ws c then
        match s' with
        | c' :: _ => if is_ws c' then replace_ws s' else underscore :: replace_ws s'
        | [] => [underscore]
        end
      else c :: replace_ws s'
  end.

(** Truthiness of a string and of a number (an IEEE 754 double): the
    empty string, [+0], [-0] and [NaN] are falsy. *)
Definition truthy_str (s : jsstring) : bool :=
  match s with [] => false | _ :: _ => true end.

Definition truthy_num (x : float) : bool :=
  negb (is_zero x || is_nan x).

(** [v || null] for a string-valued and for a number-valued property;
    [None] stands for both [undefined] (property absent) and [null]. *)
Definition str_or_null (v : option jsstring) : option jsstring :=
  match v with
  | Some s => if truthy_str s then Some s else None
  | None => None
  end.

Definition num_or_null (v : option float) : option float :=
  match v with
  | Some x => if truthy_num x then Some x else None
  | None => None
  end.

(** [v || []] for an array-valued property: every array is truthy,
    the empty one too. *)
Definition list_or_empty {A} (v : option (list A)) : list A :=
  match v with
  | Some l => l
  | None => []
  end.

(** [process.env.NAME]: a string when the variable is set. *)
Definition truthy_env (v : option jsstring) : bool :=
  match v with
  | Some s => truthy_str s
  | None => false
  end.

(* ================================================================== *)
(** * The multipart parser *)

(** [app.js] receives uploads through multer, which reads the body
    with busboy.  Neither is among the sources; what follows is their
    treatment of the name of a file part, which decides what the
    handler sees as [req.file.originalname]. *)

(** A path separator for busboy: [/] or [\]. *)
Definition is_separator (c : N) : bool := ((c =? 47) || (c =? 92))%N.

(** What follows the last separator of a name; the whole name when it
    has none. *)
Definition last_segment (s : jsstring) : jsstring :=
  fold_left (fun seg c => if is_separator c then [] else seg ++ [c]) s [].

(** busboy's [basename], applied to the [filename] parameter of a file
    part (multer leaves [preservePath] off): the directory part is
    dropped, and a name that is then [.] or [..] becomes empty. *)
Definition busboy_basename (name : jsstring) : jsstring :=
  let seg := last_segment name in
  if bool_decide (seg = [46; 46]%N) || bool_decide (seg = [46]%N) then []
  else seg.

(* ================================================================== *)
(** * Data model *)

(** One extracted field of an analysis: [{name, value}]. *)
Record Field := mkField {
  name : jsstring;
  value : jsstring
}.

(** What [analyzer.analyze] resolves to.  The handler reads three
    properties of it; each may be missing. *)
Record Analysis := mkAnalysis {
  documentType : option jsstring;
  confidence : option float;
  fields : option (list Field)
}.

(** A row of the documents table. *)
Record Document := mkDocument {
  doc_id : jsstring;
  doc_filename : jsstring;
  doc_blob_url : jsstring;
  doc_status : string;
  doc_type : option jsstring;
  doc_confidence : option float
}.

(** A row of the fields table. *)
Record FieldRow := mkFieldRow {
  row_document : jsstring;
  row_name : jsstring;
  row_value : jsstring
}.

Definition field_row (id : jsstring) (f : Field) : FieldRow :=
  mkFieldRow id (name f) (value f).

(** [req.file] as multer's disk storage fills it in. *)
Record File := mkFile {
  originalname : jsstring;
  filename : jsstring;
  path : jsstring
}.

(** The request as the upload handler sees it, after multer. *)
Record Request := mkRequest {
  file : option File;
  body : list (jsstring * jsstring)
}.

(** A part of the multipart body that carries a file, as the client
    sent it: the form field it is under, the [filename] parameter of
    its Content-Disposition header, and its content.  The name is the
    client's; busboy reads the octets of the parameter as latin1, one
    code unit for each octet, so [part_filename] holds the octets
    sent.  An empty name stands for a missing one as well. *)
Record FilePart := mkFilePart {
  part_field : jsstring;
  part_filename : jsstring;
  part_bytes : list N
}.

(** The body of a [POST /upload] as received: at most one file part,
    and the text fields.  A body that is not multipart has neither. *)
Record Multipart := mkMultipart {
  file_part : option FilePart;
  text_parts : list (jsstring * jsstring)
}.

(** JSON bodies of the responses. *)
Inductive Body :=
  | BHealth                                         (* {status:'ok'} *)
  | BError (error : string)                         (* {success:false, error} *)
  | BDocuments (documents : list Document)          (* {success:true, documents} *)
  | BDocument (document : Document) (rows : list FieldRow)
                                                    (* {success:true, document, fields} *)
  | BUploaded (documentId : jsstring) (analysis : Analysis)
                                                    (* {success:true, documentId, analysis} *)
  | BErrorPage (error : string).                    (* Express's own error page *)

Record Response := mkResponse {
  code : nat;
  json : Body
}.

(* ================================================================== *)
(** * External calls and handler programs *)

(** The result of a call: a value, or an exception. *)
Inductive Outcome (X : Type) :=
  | Returned (x : X)
  | Threw (err : string).
Arguments Returned {X} x.
Arguments Threw {X} err.

Definition is_returned {X} (o : Outcome X) : bool :=
  match o with Returned _ => true | Threw _ => false end.

(** The calls [app.js] makes to its services and to the runtime, with
    the type of what each returns. *)
Inductive Ext : Type -> Type :=
  | Uuidv4 : Ext jsstring
  | StorageConnectionString : Ext (option jsstring)
  | UploadLocalFile (filepath blobname : jsstring) : Ext jsstring
  | Analyze (blobUrl filepath : jsstring) : Ext Analysis
  | InsertDocument (id fname blob_url : jsstring) (status : string) : Ext unit
  | SaveExtractedFields (id : jsstring) (fs : list Field) : Ext unit
  | UpdateDocumentStatus (id : jsstring) (status : string)
      (ty : option jsstring) (conf : option float) : Ext unit
  | ListDocuments : Ext (list Document)
  | GetDocument (id : jsstring) : Ext (option Document)
  | GetFields (id : jsstring) : Ext (list FieldRow)
  | ConsoleError (msg : string) : Ext unit.

(** A handler body: it finishes with a value, or makes a call and
    continues from its outcome. *)
Inductive Prog (A : Type) : Type :=
  | Ret (a : A)
  | Call {X : Type} (e : Ext X) (k : Outcome X -> Prog A).
Arguments Ret {A} a.
Arguments Call {A X} e k.

(** An [async] function body: it completes normally or with an
    exception. *)
Definition Async (A : Type) : Type := Prog (Outcome A).

Definition ret {A} (a : A) : Async A := Ret (Returned a).

Definition call {X} (e : Ext X) : Async X := Call e Ret.

(** Sequencing: an exception skips the rest. *)
Fixpoint bind {A B} (m : Async A) (f : A -> Async B) : Async B :=
  match m with
  | Ret (Returned a) => f a
  | Ret (Threw err) => Ret (Threw err)
  | Call e k => Call e (fun o => bind (k o) f)
  end.

(** [try { m } catch (err) { h err }]. *)
Fixpoint try_catch {A} (m : Async A) (h : string -> Async A) : Async A :=
  match m with
  | Ret (Returned a) => Ret (Returned a)
  | Ret (Threw err) => h err
  | Call e k => Call e (fun o => try_catch (k o) h)
  end.

#[export] Instance Async_ret : MRet Async := @ret.
#[export] Instance Async_bind : MBind Async := fun A B f m => bind m f.

(* ================================================================== *)
(** * The world the handlers run in *)

(** What the trace records of a call: its arguments and whether it
    returned ([ok]) or threw; of the analyzer also what it returned
    ([None] when it threw). *)
Inductive Event :=
  | EvUuid (id : jsstring)
  | EvUploadLocalFile (filepath blobname : jsstring) (ok : bool)
  | EvAnalyze (blobUrl filepath : jsstring) (result : option Analysis)
  | EvInsertDocument (id fname blob_url : jsstring) (status : string) (ok : bool)
  | EvSaveExtractedFields (id : jsstring) (fs : list Field) (ok : bool)
  | EvUpdateDocumentStatus (id : jsstring) (status : string)
      (ty : option jsstring) (conf : option float) (ok : bool)
  | EvListDocuments (ok : bool)
  | EvGetDocument (id : jsstring) (ok : bool)
  | EvGetFields (id : jsstring) (ok : bool)
  | EvConsoleError (msg : string).

(** The two tables of the store, the files of the upload directory and
    the trace of the calls made so far, oldest first, each with the
    number of the request that made it. *)
Record World := mkWorld {
  documents : gmap (list N) Document;
  field_rows : list FieldRow;
  disk : gmap (list N) (list N);
  trace : list (nat * Event)
}.

Definition set_documents (docs : gmap (list N) Document) (w : World) : World :=
  mkWorld docs (field_rows w) (disk w) (trace w).

Definition set_field_rows (rows : list FieldRow) (w : World) : World :=
  mkWorld (documents w) rows (disk w) (trace w).

Definition set_disk (d : gmap (list N) (list N)) (w : World) : World :=
  mkWorld (documents w) (field_rows w) d (trace w).

Definition log (rq : nat) (ev : Event) (w : World) : World :=
  mkWorld (documents w) (field_rows w) (disk w) (trace w ++ [(rq, ev)]).

Definition empty_world : World := mkWorld ∅ [] ∅ [].

(** ** The document store *)

(** Modelled from the spec: [services/db.js] is not among the sources.
    [insertDocument] creates one row with null type and confidence and
    fails if the id already exists. *)
Definition insertDocument (id fname blob_url : jsstring) (status : string)
    (docs : gmap (list N) Document) : option (gmap (list N) Document) :=
  match docs !! id with
  | Some _ => None
  | None => Some (<[id := mkDocument id fname blob_url status None None]> docs)
  end.

(** Modelled from the spec: [services/db.js] is not among the sources.
    [listDocuments] returns all document rows. *)
Definition listDocuments (docs : gmap (list N) Document) : list Document :=
  (map_to_list docs).*2.

(** Modelled from the spec: [services/db.js] is not among the sources.
    [getDocument] returns the row, or a not-found signal that is not an
    error. *)
Definition getDocument (id : jsstring) (docs : gmap (list N) Document)
    : option Document :=
  docs !! id.

(** Modelled from the spec: [services/db.js] is not among the sources.
    [getFields] returns all field rows of the document, possibly none. *)
Definition getFields (id : jsstring) (rows : list FieldRow) : list FieldRow :=
  filter (fun r => row_document r = id) rows.

(** Modelled from the spec: [services/db.js] is not among the sources.
    [saveExtractedFields] inserts one row per field and does nothing
    for the empty list. *)
Definition saveExtractedFields (id : jsstring) (fs : list Field)
    (rows : list FieldRow) : list FieldRow :=
  rows ++ map (field_row id) fs.

(** Modelled from the spec: [services/db.js] is not among the sources.
    [updateDocumentStatus] updates status, type and confidence of the
    existing row and fails if there is none. *)
Definition updateDocumentStatus (id : jsstring) (status : string)
    (ty : option jsstring) (conf : option float)
    (docs : gmap (list N) Document) : option (gmap (list N) Document) :=
  match docs !! id with
  | Some d =>
      Some (<[id := mkDocument (doc_id d) (doc_filename d) (doc_blob_url d)
                      status ty conf]> docs)
  | None => None
  end.

(** ** The environment of a request *)

Inductive StoreOp :=
  | OpInsert | OpSave | OpUpdate | OpList | OpGet | OpGetFields.

(** What the surroundings do during one request: the id [uuidv4]
    draws, the value of [AZURE_STORAGE_CONNECTION_STRING], what the
    blob service and the analyzer answer (neither is among the sources;
    both are arbitrary here), and on which operations the store is
    unreachable. *)
Record Env := mkEnv {
  uuid : jsstring;
  connection_string : option jsstring;
  uploadLocalFile : jsstring -> jsstring -> Outcome jsstring;
  analyze : jsstring -> jsstring -> Outcome Analysis;
  store_down : StoreOp -> bool
}.

Definition store_error : string := "store error".

(** The effect of a call on the store, and its outcome.  A store
    operation that fails leaves the tables as they were. *)
Definition perform (env : Env) {X} (e : Ext X) (w : World) : Outcome X * World :=
  match e in Ext X return Outcome X * World with
  | Uuidv4 => (Returned (uuid env), w)
  | StorageConnectionString => (Returned (connection_string env), w)
  | UploadLocalFile filepath blobname => (uploadLocalFile env filepath blobname, w)
  | Analyze blobUrl filepath => (analyze env blobUrl filepath, w)
  | InsertDocument id fname blob_url status =>
      if store_down env OpInsert then (Threw store_error, w) else
      match insertDocument id fname blob_url status (documents w) with
      | Some docs => (Returned tt, set_documents docs w)
      | None => (Threw store_error, w)
      end
  | SaveExtractedFields id fs =>
      if store_down env OpSave then (Threw store_error, w) else
      (Returned tt, set_field_rows (saveExtractedFields id fs (field_rows w)) w)
  | UpdateDocumentStatus id status ty conf =>
      if store_down env OpUpdate then (Threw store_error, w) else
      match updateDocumentStatus id status ty conf (documents w) with
      | Some docs => (Returned tt, set_documents docs w)
      | None => (Threw store_error, w)
      end
  | ListDocuments =>
      if store_down env OpList then (Threw store_error, w) else
      (Returned (listDocuments (documents w)), w)
  | GetDocument id =>
      if store_down env OpGet then (Threw store_error, w) else
      (Returned (getDocument id (documents w)), w)
  | GetFields id =>
      if store_down env OpGetFields then (Threw store_error, w) else
      (Returned (getFields id (field_rows w)), w)
  | ConsoleError _ => (Returned tt, w)
  end.

(** The trace entry of a call. *)
Definition event_of {X} (e : Ext X) : Outcome X -> option Event :=
  match e in Ext X return Outcome X -> option Event with
  | Uuidv4 => fun o =>
      match o with Returned id => Some (EvUuid id) | Threw _ => None end
  | StorageConnectionString => fun _ => None
  | UploadLocalFile filepath blobname => fun o =>
      Some (EvUploadLocalFile filepath blobname (is_returned o))
  | Analyze blobUrl filepath => fun o =>
      Some (EvAnalyze blobUrl filepath
              (match o with Returned a => Some a | Threw _ => None end))
  | InsertDocument id fname blob_url status => fun o =>
      Some (EvInsertDocument id fname blob_url status (is_returned o))
  | SaveExtractedFields id fs => fun o =>
      Some (EvSaveExtractedFields id fs (is_returned o))
  | UpdateDocumentStatus id status ty conf => fun o =>
      Some (EvUpdateDocumentStatus id status ty conf (is_returned o))
  | ListDocuments => fun o => Some (EvListDocuments (is_returned o))
  | GetDocument id => fun o => Some (EvGetDocument id (is_returned o))
  | GetFields id => fun o => Some (EvGetFields id (is_returned o))
  | ConsoleError msg => fun _ => Some (EvConsoleError msg)
  end.

Definition record (rq : nat) (ev : option Event) (w : World) : World :=
  match ev with
  | Some ev => log rq ev w
  | None => w
  end.

(** One call of request [rq]: performed, then recorded. *)
Definition exec (env : Env) (rq : nat) {X} (e : Ext X) (w : World)
    : Outcome X * World :=
  let '(o, w') := perform env e w in (o, record rq (event_of e o) w').

(** A handler body run from start to end with no other request in
    between. *)
Fixpoint run (env : Env) (rq : nat) {A} (p : Prog A) (w : World) : A * World :=
  match p with
  | Ret a => (a, w)
  | Call e k => let '(o, w') := exec env rq e w in run env rq (k o) w'
  end.

(* ================================================================== *)
(** * Requests and the server *)

(** The requests: a [GET] of one of the three read routes, or a
    [POST /upload] with its body and the time [Date.now()] shows when
    multer names the file.  Whether the upload reaches the handler is
    decided by multer ([upload_single] below).  Requests for another
    path or method, bodies [express.json] cannot parse and bodies with
    several file parts are not covered. *)
Inductive Incoming :=
  | GET_health
  | GET_documents
  | GET_document (id : jsstring)
  | POST_upload (now : N) (m : Multipart).

(** The server: the world, the requests in flight with what remains of
    their handlers, and the number the next request gets. *)
Record Server := mkServer {
  world : World;
  inflight : list (nat * Async Response);
  next_rq : nat
}.

Definition boot : Server := mkServer empty_world [] 0.

(* ================================================================== *)
(** * Vocabulary of the properties *)

(** ** File naming *)

(** The maximal runs of a string: each run is either all whitespace
    (flag [true]) or free of it (flag [false]). *)
Fixpoint runs (s : jsstring) : list (bool * jsstring) :=
  match s with
  | [] => []
  | c :: s' =>
      match runs s' with
      | (b, r) :: rest =>
          if Bool.eqb (is_ws c) b then (b, c :: r) :: rest
          else (is_ws c, [c]) :: (b, r) :: rest
      | [] => [(is_ws c, [c])]
      end
  end.

(** Every whitespace run replaced by an underscore. *)
Definition underscore_runs (s : jsstring) : jsstring :=
  concat (map (fun br : bool * jsstring =>
                 if br.1 then [underscore] else br.2) (runs s)).

(** ** The steps of an upload *)

(** The insert throws: the store is down or the id is taken. *)
Definition insert_fails (env : Env) (w : World) : bool :=
  store_down env OpInsert
  || match documents w !! uuid env with Some _ => true | None => false end.

Definition save_fails (env : Env) : bool := store_down env OpSave.

Definition update_fails (env : Env) : bool := store_down env OpUpdate.

(** The same surroundings with no storage connection string set. *)
Definition without_storage (env : Env) : Env :=
  mkEnv (uuid env) None (uploadLocalFile env) (analyze env) (store_down env).

(** The calls a request added to the trace. *)
Definition new_events (w w' : World) : list (nat * Event) :=
  drop (length (trace w)) (trace w').

(** Every field row belongs to a document. *)
Definition store_consistent (w : World) : Prop :=
  forall r, r ∈ field_rows w -> is_Some (documents w !! row_document r).

(** ** What multer lets through *)

(** The field [upload.single] is given in [app.js]. *)
Definition upload_field : jsstring := js "file".

(** multer hands the file part to the storage: busboy reports a name
    for it, and it is under the expected field. *)
Definition accepts (p : FilePart) : bool :=
  truthy_str (busboy_basename (part_filename p))
  && bool_decide (part_field p = upload_field).

(** multer refuses the request: the part has a name and is under
    another field. *)
Definition refuses (p : FilePart) : bool :=
  truthy_str (busboy_basename (part_filename p))
  && negb (bool_decide (part_field p = upload_field)).

(** The request never reaches its handler. *)
Definition refused (r : Incoming) : bool :=
  match r with
  | POST_upload _ m =>
      match file_part m with
      | Some p => refuses p
      | None => false
      end
  | _ => false
  end.

(** [name] is [full] without its directory part: [full] is [name]
    itself, or ends in a separator followed by [name], and [name] has no
    separator in it. *)
Definition directory_stripped (full name : jsstring) : Prop :=
  Forall (fun c => is_separator c = false) name /\
  (full = name \/
   exists dir c, is_separator c = true /\ full = dir ++ c :: name).

(** ** The discipline of a handler *)

(** What a request has achieved so far: the documents it inserted and
    the documents whose fields it saved. *)
Record Progress := mkProgress {
  inserted : list jsstring;
  saved : list jsstring
}.

(** A call is in order: no row is inserted as [processed], fields are
    saved only for a document the request inserted, and a document is
    set to [processed] only after the request saved its fields. *)
Definition in_order {X} (g : Progress) (e : Ext X) : Prop :=
  match e with
  | InsertDocument _ _ _ status => status <> "processed"
  | SaveExtractedFields id _ => id ∈ inserted g
  | UpdateDocumentStatus id status _ _ => status = "processed" -> id ∈ saved g
  | _ => True
  end.

Definition advance {X} (e : Ext X) (o : Outcome X) (g : Progress) : Progress :=
  match e with
  | InsertDocument id _ _ _ =>
      if is_returned o then mkProgress (id :: inserted g) (saved g) else g
  | SaveExtractedFields id _ =>
      if is_returned o then mkProgress (inserted g) (id :: saved g) else g
  | _ => g
  end.

(** Whatever the outcomes of its calls, the program makes them in
    order. *)
Fixpoint disciplined {A} (g : Progress) (p : Prog A) : Prop :=
  match p with
  | Ret _ => True
  | Call e k => in_order g e /\ forall o, disciplined (advance e o g) (k o)
  end.

(** The progress claimed for request [rq] is backed by the trace. *)
Definition backed (rq : nat) (g : Progress) (tr : list (nat * Event)) : Prop :=
  (forall id, id ∈ inserted g ->
     exists fname url st, (rq, EvInsertDocument id fname url st true) ∈ tr) /\
  (forall id, id ∈ saved g ->
     exists fs, (rq, EvSaveExtractedFields id fs true) ∈ tr).

(** The invariant of the server. *)
Record invariant (s : Server) : Prop := mkInvariant {
  (* every request in flight goes on in order *)
  inv_flows : forall rq p, (rq, p) ∈ inflight s ->
    exists g, disciplined g p /\ backed rq g (trace (world s));
  (* a document once inserted stays *)
  inv_inserted : forall rq id fname url st,
    (rq, EvInsertDocument id fname url st true) ∈ trace (world s) ->
    is_Some (documents (world s) !! id);
  (* the fields saved are in the table *)
  inv_saved : forall rq id fs,
    (rq, EvSaveExtractedFields id fs true) ∈ trace (world s) ->
    forall f, f ∈ fs -> field_row id f ∈ field_rows (world s);
  (* the flip to [processed] comes after the save of the same request *)
  inv_updated : forall j rq id ty conf,
    trace (world s) !! j = Some (rq, EvUpdateDocumentStatus id "processed" ty conf true) ->
    exists i fs, i < j /\
      trace (world s) !! i = Some (rq, EvSaveExtractedFields id fs true);
  (* a [processed] row was flipped by an update *)
  inv_processed : forall id d,
    documents (world s) !! id = Some d -> doc_status d = "processed" ->
    exists j rq ty conf,
      trace (world s) !! j = Some (rq, EvUpdateDocumentStatus id "processed" ty conf true);
  (* rows belong to documents *)
  inv_consistent : store_consistent (world s)
}.

Definition start : Progress := mkProgress [] [].

(** Every request gets a number of its own: the requests in flight
    have distinct numbers, all below the next one, and so have the
    calls in the trace. *)
Definition numbered (s : Server) : Prop :=
  NoDup (inflight s).*1 /\
  (forall rq, rq ∈ (inflight s).*1 -> rq < next_rq s) /\
  (forall rq, rq ∈ (trace (world s)).*1 -> rq < next_rq s).

(** ** One recorded call *)

(** The trace entries of one call. *)
Definition entries (rq : nat) (ev : option Event) : list (nat * Event) :=
  match ev with
  | Some ev => [(rq, ev)]
  | None => []
  end.

(** What a recorded call did to the tables. *)
Definition effect (ev : option Event) (w w' : World) : Prop :=
  match ev with
  | Some (EvInsertDocument id fname url st true) =>
      documents w !! id = None /\
      documents w' = <[id := mkDocument id fname url st None None]> (documents w) /\
      field_rows w' = field_rows w
  | Some (EvSaveExtractedFields id fs true) =>
      documents w' = documents w /\
      field_rows w' = field_rows w ++ map (field_row id) fs
  | Some (EvUpdateDocumentStatus id st ty conf true) =>
      exists d, documents w !! id = Some d /\
      documents w' =
        <[id := mkDocument (doc_id d) (doc_filename d) (doc_blob_url d) st ty conf]>
          (documents w) /\
      field_rows w' = field_rows w
  | _ => documents w' = documents w /\ field_rows w' = field_rows w
  end.

(** [in_order] and [advance], read off the recorded call. *)
Definition in_order_ev (g : Progress) (ev : option Event) : Prop :=
  match ev with
  | Some (EvInsertDocument _ _ _ st _) => st <> "processed"
  | Some (EvSaveExtractedFields id _ _) => id ∈ inserted g
  | Some (EvUpdateDocumentStatus id st _ _ _) => st = "processed" -> id ∈ saved g
  | _ => True
  end.

Definition advance_ev (ev : option Event) (g : Progress) : Progress :=
  match ev with
  | Some (EvInsertDocument id _ _ _ true) => mkProgress (id :: inserted g) (saved g)
  | Some (EvSaveExtractedFields id _ true) => mkProgress (inserted g) (id :: saved g)
  | _ => g
  end.

(** ** What a handler may call *)

(** A handler checked against a rule: [ok g e] allows the call [e]
    when the request has come as far as [g], and [adv e o g] is how far
    it has come after the outcome [o]. *)
Fixpoint guarded {G} (ok : G -> forall X, Ext X -> Prop)
    (adv : forall X, Ext X -> Outcome X -> G -> G)
    {A} (g : G) (p : Prog A) : Prop :=
  match p with
  | Ret _ => True
  | Call e k => ok g _ e /\ forall o, guarded ok adv (adv _ e o g) (k o)
  end.

(** The statuses written are the two literals of the upload handler. *)
Definition literal_status (_ : unit) X (e : Ext X) : Prop :=
  match e with
  | InsertDocument _ _ _ status => status = "processing"
  | UpdateDocumentStatus _ status _ _ => status = "processed"
  | _ => True
  end.

Definition stay (X : Type) (_ : Ext X) (_ : Outcome X) (u : unit) : unit := u.

Definition literal_status_ev (ev : option Event) : Prop :=
  match ev with
  | Some (EvInsertDocument _ _ _ st _) => st = "processing"
  | Some (EvUpdateDocumentStatus _ st _ _ _) => st = "processed"
  | _ => True
  end.

(** A row is either being processed, with no type and no confidence
    yet, or processed. *)
Definition status_ok (d : Document) : Prop :=
  (doc_status d = "processing" /\ doc_type d = None /\ doc_confidence d = None)
  \/ doc_status d = "processed".

(** The fields a request saves are those of the analysis it got:
    the array under [fields], or nothing when the analysis has no such
    property. *)
Definition fields_of (a : Analysis) (fs : list Field) : Prop :=
  match fields a with
  | Some l => fs = l
  | None => fs = []
  end.

Definition saves_analysis (g : option Analysis) X (e : Ext X) : Prop :=
  match e with
  | SaveExtractedFields _ fs => exists a, g = Some a /\ fields_of a fs
  | _ => True
  end.

Definition analysed X (e : Ext X)
    : Outcome X -> option Analysis -> option Analysis :=
  match e in Ext X return Outcome X -> option Analysis -> option Analysis with
  | Analyze _ _ => fun o g =>
      match o with Returned a => Some a | Threw _ => g end
  | _ => fun _ g => g
  end.

(** The analysis held by request [rq] is one the analyzer returned to
    it. *)
Definition analysed_in (rq : nat) (g : option Analysis)
    (tr : list (nat * Event)) : Prop :=
  forall a, g = Some a ->
    exists h url filepath, tr !! h = Some (rq, EvAnalyze url filepath (Some a)).

(** Every save in the trace carries the fields of an analysis that
    the analyzer had returned to the same request before. *)
Definition saves_follow_analysis (w : World) : Prop :=
  forall i rq id fs ok,
    trace w !! i = Some (rq, EvSaveExtractedFields id fs ok) ->
    exists h url filepath a, h < i /\
      trace w !! h = Some (rq, EvAnalyze url filepath (Some a)) /\
      fields_of a fs.

(** A row is inserted only under an id the request drew from
    [uuidv4]. *)
Definition insert_drawn (drawn : list jsstring) X (e : Ext X) : Prop :=
  match e with
  | InsertDocument id _ _ _ => id ∈ drawn
  | _ => True
  end.

Definition draw X (e : Ext X) : Outcome X -> list jsstring -> list jsstring :=
  match e in Ext X return Outcome X -> list jsstring -> list jsstring with
  | Uuidv4 => fun o drawn =>
      match o with Returned id => id :: drawn | Threw _ => drawn end
  | _ => fun _ drawn => drawn
  end.

Definition insert_drawn_ev (drawn : list jsstring) (ev : option Event) : Prop :=
  match ev with
  | Some (EvInsertDocument id _ _ _ _) => id ∈ drawn
  | _ => True
  end.

Definition draw_ev (ev : option Event) (drawn : list jsstring) : list jsstring :=
  match ev with
  | Some (EvUuid id) => id :: drawn
  | _ => drawn
  end.

(** The ids claimed as drawn by request [rq] are in the trace. *)
Definition drawn_in (rq : nat) (drawn : list jsstring)
    (tr : list (nat * Event)) : Prop :=
  forall id, id ∈ drawn -> (rq, EvUuid id) ∈ tr.

(** [in_order] and [advance] as a rule. *)
Definition in_order_rule (g : Progress) X (e : Ext X) : Prop := in_order g e.

Definition advance_rule X (e : Ext X) (o : Outcome X) (g : Progress) : Progress :=
  advance e o g.

(** ** Responses *)

(** The responses the handler of a route can give. *)
Definition answers (r : Incoming) (resp : Response) : Prop :=
  match r with
  | GET_health => resp = mkResponse 200 BHealth
  | GET_documents =>
      (exists ds, resp = mkResponse 200 (BDocuments ds))
      \/ resp = mkResponse 500 (BError "db error")
  | GET_document _ =>
      (exists d rows, resp = mkResponse 200 (BDocument d rows))
      \/ resp = mkResponse 404 (BError "not found")
      \/ resp = mkResponse 500 (BError "db error")
  | POST_upload _ _ =>
      (exists id a, resp = mkResponse 200 (BUploaded id a))
      \/ resp = mkResponse 400 (BError "no file uploaded")
      \/ resp = mkResponse 500 (BError "upload failed")
  end.

(** The tables and the upload directory are the same. *)
Definition same_state (w w' : World) : Prop :=
  documents w' = documents w /\ field_rows w' = field_rows w /\ disk w' = disk w.

(** A decimal digit. *)
Definition is_digit (c : N) : bool := ((48 <=? c) && (c <=? 57))%N.

(* ================================================================== *)
(** * A concrete deployment *)

Definition posix_join (dir fname : jsstring) : jsstring :=
  dir ++ js "/" ++ fname.

(** The last segment of a path. *)
Fixpoint posix_basename (p : jsstring) : jsstring :=
  match p with
  | [] => []
  | c :: p' =>
      if bool_decide (47%N ∈ p') then posix_basename p'
      else if (c =? 47)%N then p' else p
  end.

Definition demo_dir : jsstring := js "/srv/backend/uploads".

Definition demo_part : FilePart :=
  mkFilePart (js "file") (js "my  fax 1.pdf") [37; 80; 68; 70]%N.

(** The same file sent with a directory in its name, and sent under
    another field. *)
Definition demo_part_in_dir : FilePart :=
  mkFilePart (js "file") (js "dir/a b.pdf") [37; 80; 68; 70]%N.


Definition demo_now : N := 1700000000000.

Definition demo_texts : list (jsstring * jsstring) := [(js "note", js "urgent")].

Definition demo_upload : Incoming :=
  POST_upload demo_now (mkMultipart (Some demo_part) demo_texts).

Definition demo_upload_in_dir : Incoming :=
  POST_upload demo_now (mkMultipart (Some demo_part_in_dir) demo_texts).


Definition demo_upload_no_file : Incoming :=
  POST_upload demo_now (mkMultipart None demo_texts).

Definition demo_analysis : Analysis :=
  mkAnalysis (Some (js "invoice")) (Some 0.75%float)
    (Some [mkField (js "total") (js "12.50")]).

(** No storage configured, the mock analyzer answering, the store up. *)
Definition demo_env : Env :=
  mkEnv (js "3f0c") None
    (fun _ _ => Threw "no storage account")
    (fun _ _ => Returned demo_analysis)
    (fun _ => false).

(** Storage configured but the blob service unreachable. *)
Definition demo_env_blob_down : Env :=
  mkEnv (js "3f0c") (Some (js "UseDevelopmentStorage=true"))
    (fun _ _ => Threw "ECONNREFUSED")
    (fun _ _ => Returned demo_analysis)
    (fun _ => false).

(** The analyzer service unreachable. *)
Definition demo_env_analyzer_down : Env :=
  mkEnv (js "3f0c") None
    (fun _ _ => Threw "no storage account")
    (fun _ _ => Threw "analysis failed")
    (fun _ => false).

(** The store unreachable. *)
Definition demo_env_store_down : Env :=
  mkEnv (js "3f0c") None
    (fun _ _ => Threw "no storage account")
    (fun _ _ => Returned demo_analysis)
    (fun _ => true).

(** The analyzer reporting a confidence of zero. *)
Definition zero_confidence_analysis : Analysis :=
  mkAnalysis (Some (js "invoice")) (Some 0%float) (Some []).

Definition demo_env_zero_confidence : Env :=
  mkEnv (js "3f0c") None
    (fun _ _ => Threw "no storage account")
    (fun _ _ => Returned zero_confidence_analysis)
    (fun _ => false).

(** Storage configured and the blob service answering. *)
Definition demo_remote_url : jsstring :=
  js "https://acct.blob.core.windows.net/faxes/1700000000000_my_fax_1.pdf".

Definition demo_env_cloud : Env :=
  mkEnv (js "3f0c") (Some (js "UseDevelopmentStorage=true"))
    (fun _ _ => Returned demo_remote_url)
    (fun _ _ => Returned demo_analysis)
    (fun _ => false).

(* ================================================================== *)
(** * Proof tools *)

(** Case analysis on what the surroundings do at the next call. *)
Ltac next_case :=
  match goal with
  | |- context [truthy_env (connection_string ?env)] =>
      destruct (truthy_env (connection_string env)) eqn:?
  | |- context [truthy_str (filename ?f)] =>
      destruct (truthy_str (filename f)) eqn:?
  | |- context [uploadLocalFile ?env ?a ?b] =>
      destruct (uploadLocalFile env a b) eqn:?
  | |- context [store_down ?env ?op] =>
      destruct (store_down env op) eqn:?
  | |- context [analyze ?env ?a ?b] =>
      destruct (analyze env a b) eqn:?
  | |- context [documents ?w !! ?id] =>
      is_var w; destruct (documents w !! id) eqn:?
  end.

Ltac unfold_calls :=
  repeat (progress (cbn;
    unfold exec, perform, insertDocument, updateDocumentStatus, getDocument,
      listDocuments;
    cbn; rewrite ?lookup_insert_eq)).

Ltac use_cases :=
  repeat match goal with
         | H : ?x = _ |- context [?x] => rewrite H
         end.

(** Run a handler symbolically, one branch per behaviour of the
    surroundings. *)
Ltac run_cases := unfold_calls; repeat (next_case; unfold_calls).

(** Discharge [disciplined] for a handler body. *)
Ltac discipline :=
  repeat (cbn in *;
    match goal with
    | |- _ /\ _ => split
    | |- forall _, _ => intro
    | o : Outcome _ |- _ => destruct o
    | |- True => exact I
    | |- _ <> _ => discriminate
    | |- _ ∈ _ :: _ => apply list_elem_of_here || apply list_elem_of_further
    | |- context [if ?b then _ else _] => destruct b
    | |- context [match ?x with _ => _ end] => destruct x
    end).

Ltac find_event :=
  repeat first [ by apply list_elem_of_here | apply list_elem_of_further ].

(* ================================================================== *)
(** * The gateway: [app.js] *)

Section Gateway.

(** [UPLOAD_DIR] is [path.join(__dirname, 'uploads')]; [path.join] and
    [path.basename] are Node's. *)
Variable UPLOAD_DIR : jsstring.
Variable path_join : jsstring -> jsstring -> jsstring.
Variable path_basename : jsstring -> jsstring.

(** The [filename] callback of [multer.diskStorage]:
    [Date.now() + '_' + file.originalname.replace(/\s+/g,'_')]. *)
Definition storage_filename (now : N) (originalname : jsstring) : jsstring :=
  decimal now ++ js "_" ++ replace_ws originalname.

(** [upload.single('file')] with that storage.  multer is not among
    the sources; this is what it does with a file part.  The name
    busboy reports is the base name of the client's; a part without
    one is skipped, and [req.file] stays undefined.  A part under
    another field than [file] makes multer fail with a [MulterError],
    [Unexpected field], before anything is written, and the handler is
    not run.  Otherwise the content is written to
    [path.join(UPLOAD_DIR, name)] for the name the callback gives, and
    [req.file] describes it, with the base name as [originalname]. *)
Definition upload_single (now : N) (m : Multipart) (w : World)
    : Outcome Request * World :=
  match file_part m with
  | Some p =>
      let oname := busboy_basename (part_filename p) in
      if truthy_str oname then
        if bool_decide (part_field p = upload_field) then
          let fname := storage_filename now oname in
          let fpath := path_join UPLOAD_DIR fname in
          (Returned (mkRequest (Some (mkFile oname fname fpath)) (text_parts m)),
           set_disk (<[fpath := part_bytes p]> (disk w)) w)
        else (Threw "Unexpected field", w)
      else (Returned (mkRequest None (text_parts m)), w)
  | None => (Returned (mkRequest None (text_parts m)), w)
  end.

(** [app.js] registers no error middleware, so an error a middleware
    passes on is answered by Express's default handler (not among the
    sources): status 500, a page made from the error, and the error
    written to [console.error]. *)
Definition default_error_handler (err : string) : Async Response :=
  _ ← call (ConsoleError err);
  ret (mkResponse 500 (BErrorPage err)).

(** [GET /health] *)
Definition get_health : Async Response :=
  ret (mkResponse 200 BHealth).

(** [GET /documents] *)
Definition get_documents : Async Response :=
  try_catch
    (docs ← call ListDocuments;
     ret (mkResponse 200 (BDocuments docs)))
    (fun err =>
     _ ← call (ConsoleError err);
     ret (mkResponse 500 (BError "db error"))).

(** [GET /document/:id] *)
Definition get_document (id : jsstring) : Async Response :=
  try_catch
    (doc ← call (GetDocument id);
     match doc with
     | None => ret (mkResponse 404 (BError "not found"))
     | Some d =>
         rows ← call (GetFields id);
         ret (mkResponse 200 (BDocument d rows))
     end)
    (fun err =>
     _ ← call (ConsoleError err);
     ret (mkResponse 500 (BError "db error"))).

(** The blob-storage step of the upload: [blobUrl] starts as the local
    path and becomes the remote URL only if the connection string is
    set and the upload returns. *)
Definition store_blob (conn : option jsstring) (f : File) : Async jsstring :=
  if truthy_env conn then
    try_catch
      (call (UploadLocalFile (path f)
               (if truthy_str (filename f) then filename f
                else path_basename (path f))))
      (fun err =>
       _ ← call (ConsoleError "Azure blob upload failed");
       ret (path f))
  else ret (path f).

(** [POST /upload], after [upload.single('file')]. *)
Definition post_upload (req : Request) : Async Response :=
  try_catch
    (match file req with
     | None => ret (mkResponse 400 (BError "no file uploaded"))
     | Some f =>
         let filepath := path f in
         let fname := originalname f in
         id ← call Uuidv4;
         conn ← call StorageConnectionString;
         blobUrl ← store_blob conn f;
         _ ← call (InsertDocument id fname blobUrl "processing");
         analysis ← call (Analyze blobUrl filepath);
         _ ← call (SaveExtractedFields id (list_or_empty (fields analysis)));
         _ ← call (UpdateDocumentStatus id "processed"
                     (str_or_null (documentType analysis))
                     (num_or_null (confidence analysis)));
         ret (mkResponse 200 (BUploaded id analysis))
     end)
    (fun err =>
     _ ← call (ConsoleError err);
     ret (mkResponse 500 (BError "upload failed"))).

(** ** The server: requests interleaved at their calls *)

(** The handler an incoming request starts, after its middleware. *)
Definition accept (r : Incoming) (w : World) : Async Response * World :=
  match r with
  | GET_health => (get_health, w)
  | GET_documents => (get_documents, w)
  | GET_document id => (get_document id, w)
  | POST_upload now m =>
      match upload_single now m w with
      | (Returned req, w') => (post_upload req, w')
      | (Threw err, w') => (default_error_handler err, w')
      end
  end.

(** A request served from start to end with no other request in
    between: its middleware, then its handler. *)
Definition serve (env : Env) (rq : nat) (r : Incoming) (w : World)
    : Outcome Response * World :=
  let '(p, w1) := accept r w in run env rq p w1.

(** One step of the event loop: a request arrives, a request in flight
    makes its next call (under any behaviour of the surroundings), or a
    finished handler leaves.  Requests interleave at their calls; the
    calls that are not awaited ([uuidv4], [process.env],
    [console.error]) are interleaving points too, which only adds
    behaviours. *)
Inductive step : Server -> Server -> Prop :=
  | step_accept r w fl n p w' :
      accept r w = (p, w') ->
      step (mkServer w fl n) (mkServer w' (fl ++ [(n, p)]) (S n))
  | step_call env w fl1 fl2 n rq X (e : Ext X) k o w' :
      exec env rq e w = (o, w') ->
      step (mkServer w (fl1 ++ (rq, Call e k) :: fl2) n)
           (mkServer w' (fl1 ++ (rq, k o) :: fl2) n)
  | step_done w fl1 fl2 n rq out :
      step (mkServer w (fl1 ++ (rq, Ret out) :: fl2) n)
           (mkServer w (fl1 ++ fl2) n).

Definition reachable (s : Server) : Prop := rtc step boot s.

(** ** The steps of an upload *)

(** [req.file] for a file part multer lets through at time [now]. *)
Definition received (now : N) (p : FilePart) : File :=
  let oname := busboy_basename (part_filename p) in
  mkFile oname
    (storage_filename now oname)
    (path_join UPLOAD_DIR (storage_filename now oname)).

(** The blob name the handler passes to the storage service. *)
Definition blob_name (f : File) : jsstring :=
  if truthy_str (filename f) then filename f else path_basename (path f).

(** The storage call is made and throws. *)
Definition blob_upload_fails (env : Env) (f : File) : bool :=
  truthy_env (connection_string env)
  && negb (is_returned (uploadLocalFile env (path f) (blob_name f))).

(** The location the upload ends up with. *)
Definition resolved_url (env : Env) (f : File) : jsstring :=
  if truthy_env (connection_string env) then
    match uploadLocalFile env (path f) (blob_name f) with
    | Returned remoteUrl => remoteUrl
    | Threw _ => path f
    end
  else path f.

Definition analyze_fails (env : Env) (f : File) : bool :=
  negb (is_returned (analyze env (resolved_url env f) (path f))).

(** One of the steps after the storage step throws. *)
Definition upload_fails (env : Env) (f : File) (w : World) : bool :=
  insert_fails env w || analyze_fails env f || save_fails env || update_fails env.

(** The fields the analyzer returned, none if it threw. *)
Definition analyzed_fields (env : Env) (f : File) : list Field :=
  match analyze env (resolved_url env f) (path f) with
  | Returned a => list_or_empty (fields a)
  | Threw _ => []
  end.

(** The row as the upload inserts it. *)
Definition processing_row (env : Env) (f : File) : Document :=
  mkDocument (uuid env) (originalname f) (resolved_url env f)
    "processing" None None.

(** What the tables and the response are after the upload handler, by
    the first step that throws. *)
Definition documents_after (env : Env) (f : File) (w : World)
    : gmap (list N) Document :=
  if insert_fails env w then documents w else
  match analyze env (resolved_url env f) (path f) with
  | Returned a =>
      if save_fails env || update_fails env
      then <[uuid env := processing_row env f]> (documents w)
      else <[uuid env :=
               mkDocument (uuid env) (originalname f) (resolved_url env f)
                 "processed" (str_or_null (documentType a))
                 (num_or_null (confidence a))]> (documents w)
  | Threw _ => <[uuid env := processing_row env f]> (documents w)
  end.

Definition field_rows_after (env : Env) (f : File) (w : World) : list FieldRow :=
  if insert_fails env w || analyze_fails env f || save_fails env
  then field_rows w
  else field_rows w ++ map (field_row (uuid env)) (analyzed_fields env f).

Definition response_after (env : Env) (f : File) (w : World) : Response :=
  if upload_fails env f w
  then mkResponse 500 (BError "upload failed")
  else
    match analyze env (resolved_url env f) (path f) with
    | Returned a => mkResponse 200 (BUploaded (uuid env) a)
    | Threw _ => mkResponse 500 (BError "upload failed")
    end.

(** What holds of every call an upload records. *)
Definition upload_event (env : Env) (f : File) (ev : Event) : Prop :=
  match ev with
  | EvUuid id => id = uuid env
  | EvUploadLocalFile filepath blobname _ =>
      truthy_env (connection_string env) = true /\
      filepath = path f /\ blobname = blob_name f
  | EvInsertDocument id fname url st _ =>
      id = uuid env /\ fname = originalname f /\
      url = resolved_url env f /\ st = "processing"
  | EvAnalyze url filepath _ =>
      url = resolved_url env f /\ filepath = path f
  | EvSaveExtractedFields id fs _ =>
      id = uuid env /\ fs = analyzed_fields env f
  | EvUpdateDocumentStatus id st _ _ _ => id = uuid env /\ st = "processed"
  | EvConsoleError _ => True
  | EvListDocuments _ | EvGetDocument _ _ | EvGetFields _ _ => False
  end.

(** ** The calls of an upload *)

(** The calls of the storage step, in order. *)
Definition blob_calls (env : Env) (f : File) : list Event :=
  if truthy_env (connection_string env) then
    match uploadLocalFile env (path f) (blob_name f) with
    | Returned _ => [EvUploadLocalFile (path f) (blob_name f) true]
    | Threw _ => [EvUploadLocalFile (path f) (blob_name f) false;
                  EvConsoleError "Azure blob upload failed"]
    end
  else [].

(** The calls of an upload with a file, in order, up to the first one
    that throws and the [console.error] that follows it. *)
Definition upload_calls (env : Env) (f : File) (w : World) : list Event :=
  let id := uuid env in
  let url := resolved_url env f in
  EvUuid id :: blob_calls env f ++
  EvInsertDocument id (originalname f) url "processing" (negb (insert_fails env w)) ::
  if insert_fails env w then [EvConsoleError store_error] else
  match analyze env url (path f) with
  | Threw err => [EvAnalyze url (path f) None; EvConsoleError err]
  | Returned a =>
      EvAnalyze url (path f) (Some a) ::
      EvSaveExtractedFields id (list_or_empty (fields a)) (negb (save_fails env)) ::
      if save_fails env then [EvConsoleError store_error] else
      EvUpdateDocumentStatus id "processed" (str_or_null (documentType a))
        (num_or_null (confidence a)) (negb (update_fails env)) ::
      if update_fails env then [EvConsoleError store_error] else []
  end.

(* ================================================================== *)
(** * Lists and the fields table *)

Lemma lookup_snoc_Some {A} (l : list A) (x y : A) j :
  (l ++ [x]) !! j = Some y -> l !! j = Some y \/ (j = length l /\ y = x).
Proof.
  intros H. destruct (decide (j < length l)) as [Hlt|Hge].
  - left. by rewrite lookup_app_l in H.
  - right. rewrite lookup_app_r in H by lia.
    destruct (j - length l) as [|n] eqn:E; cbn in H; [|done].
    split; [lia | congruence].
Qed.

Lemma getFields_app id rows1 rows2 :
  getFields id (rows1 ++ rows2) = getFields id rows1 ++ getFields id rows2.
Proof. apply filter_app. Qed.

Lemma getFields_own id fs :
  getFields id (map (field_row id) fs) = map (field_row id) fs.
Proof.
  unfold getFields. induction fs as [|f fs IH]; [done|].
  cbn [map]. rewrite filter_cons_True by done. by rewrite IH.
Qed.

Lemma getFields_elem id rows r :
  r ∈ getFields id rows <-> r ∈ rows /\ row_document r = id.
Proof. unfold getFields. rewrite list_elem_of_filter. tauto. Qed.

Lemma getFields_none id rows :
  (forall r, r ∈ rows -> row_document r <> id) -> getFields id rows = [].
Proof.
  intros H. destruct (getFields id rows) as [|r l] eqn:E; [done|].
  assert (r ∈ getFields id rows) as [Hr Hid]%getFields_elem
    by (rewrite E; apply list_elem_of_here).
  by destruct (H r Hr).
Qed.

Lemma getFields_fresh w id :
  store_consistent w -> documents w !! id = None ->
  getFields id (field_rows w) = [].
Proof.
  intros Hc Hid. apply getFields_none. intros r Hr <-.
  destruct (Hc r Hr) as [d Hd]. congruence.
Qed.

(* ================================================================== *)
(** * File naming *)

Lemma runs_cons c s :
  exists r rest, runs (c :: s) = (is_ws c, c :: r) :: rest.
Proof.
  cbn. destruct (runs s) as [|[b r] rest]; [by eauto|].
  destruct (Bool.eqb (is_ws c) b) eqn:E; [|by eauto].
  apply Bool.eqb_prop in E as <-. eauto.
Qed.

Lemma runs_step c c' s r rest :
  runs (c' :: s) = (is_ws c', r) :: rest ->
  runs (c :: c' :: s) =
    if Bool.eqb (is_ws c) (is_ws c') then (is_ws c', c :: r) :: rest
    else (is_ws c, [c]) :: (is_ws c', r) :: rest.
Proof. intros H. change (runs (c :: c' :: s)) with
  (match runs (c' :: s) with
      | (b, r) :: rest =>
          if Bool.eqb (is_ws c) b then (b, c :: r) :: rest
          else (is_ws c, [c]) :: (b, r) :: rest
      | [] => [(is_ws c, [c])]
      end). by rewrite H. Qed.

(** The runs put together give the string back. *)
Lemma runs_concat s : concat (map snd (runs s)) = s.
Proof.
  induction s as [|c s IH]; [done|].
  cbn. destruct (runs s) as [|[b r] rest]; cbn in *; [by subst|].
  destruct (Bool.eqb (is_ws c) b); cbn; by rewrite IH.
Qed.

(** Every run is non-empty and of one kind. *)
Lemma runs_uniform s :
  Forall (fun br : bool * jsstring =>
            br.2 <> [] /\ Forall (fun c => is_ws c = br.1) br.2) (runs s).
Proof.
  induction s as [|c s IH]; [by constructor|].
  cbn. destruct (runs s) as [|[b r] rest].
  - repeat constructor; done.
  - destruct (Bool.eqb (is_ws c) b) eqn:E.
    + apply Bool.eqb_prop in E. inversion IH as [|? ? [Hne Hall] Hrest]; subst.
      constructor; [|done]. cbn in *. split; [done|]. by constructor.
    + constructor; [|done]. cbn. split; [done|]. by repeat constructor.
Qed.

(** Neighbouring runs are of different kinds: the runs are maximal. *)
Lemma runs_maximal s i br1 br2 :
  runs s !! i = Some br1 -> runs s !! S i = Some br2 -> br1.1 <> br2.1.
Proof.
  revert i br1 br2. induction s as [|c s IH]; [done|].
  intros i br1 br2. cbn. destruct (runs s) as [|[b r] rest] eqn:Hs.
  - done.
  - destruct (Bool.eqb (is_ws c) b) eqn:E.
    + destruct i as [|i].
      * cbn. intros [= <-] H2. cbn. apply (IH 0 (b, r) br2); done.
      * cbn. intros H1 H2. apply (IH (S i) br1 br2); done.
    + destruct i as [|i].
      * cbn. intros [= <-] [= <-]. cbn. intros Heq. rewrite Heq in E.
        by rewrite Bool.eqb_reflx in E.
      * cbn. intros H1 H2. apply (IH i br1 br2); done.
Qed.

Lemma replace_ws_runs s : replace_ws s = underscore_runs s.
Proof.
  induction s as [|c s IH]; [done|].
  destruct s as [|c' s].
  - unfold underscore_runs. cbn. by destruct (is_ws c).
  - destruct (runs_cons c' s) as (r & rest & Hr).
    unfold underscore_runs in *. rewrite (runs_step c c' s _ _ Hr).
    rewrite Hr in IH.
    change (replace_ws (c :: c' :: s)) with
      (if is_ws c then
         if is_ws c' then replace_ws (c' :: s) else underscore :: replace_ws (c' :: s)
       else c :: replace_ws (c' :: s)).
    rewrite IH. destruct (is_ws c), (is_ws c'); reflexivity.
Qed.

Lemma replace_ws_clean s : Forall (fun c => is_ws c = false) (replace_ws s).
Proof.
  induction s as [|c s IH]; [by constructor|].
  cbn [replace_ws]. destruct (is_ws c) eqn:E.
  - destruct s as [|c' s]; [by repeat constructor|].
    destruct (is_ws c'); [done|]. by constructor.
  - by constructor.
Qed.

Lemma replace_ws_id s : Forall (fun c => is_ws c = false) s -> replace_ws s = s.
Proof.
  induction 1 as [|c s Hc _ IH]; [done|]. cbn [replace_ws]. rewrite Hc. by rewrite IH.
Qed.

Example decimal_timestamp : decimal 1700000000000 = js "1700000000000".
Proof. reflexivity. Qed.

Example replace_ws_sample :
  replace_ws (js "  my  fax 1.pdf ") = js "_my_fax_1.pdf_".
Proof. reflexivity. Qed.

(* ================================================================== *)
(** * One call *)

Lemma perform_frame env X (e : Ext X) w :
  trace (perform env e w).2 = trace w /\ disk (perform env e w).2 = disk w.
Proof. destruct e; cbn; repeat case_match; done. Qed.

Lemma exec_trace env rq X (e : Ext X) w o w' :
  exec env rq e w = (o, w') ->
  trace w' = trace w ++ entries rq (event_of e o) /\ disk w' = disk w.
Proof.
  unfold exec. destruct (perform env e w) as [o1 w1] eqn:E.
  intros [= <- <-]. pose proof (perform_frame env X e w) as [Ht Hd].
  rewrite E in Ht, Hd. cbn in Ht, Hd.
  destruct (event_of e o1); cbn; rewrite ?Ht, ?Hd, ?app_nil_r; done.
Qed.

Lemma exec_effect env rq X (e : Ext X) w o w' :
  exec env rq e w = (o, w') -> effect (event_of e o) w w'.
Proof.
  unfold exec. destruct (perform env e w) as [o1 w1] eqn:E.
  intros [= <- <-]. revert E.
  destruct e; cbn; unfold insertDocument, updateDocumentStatus;
    repeat case_match; intros; simplify_eq; cbn; eauto.
Qed.

Lemma in_order_event X g (e : Ext X) o : in_order g e -> in_order_ev g (event_of e o).
Proof. destruct e; cbn; try done. by destruct o. Qed.

Lemma advance_event X g (e : Ext X) o : advance e o g = advance_ev (event_of e o) g.
Proof. destruct e; cbn; try done; by destruct o. Qed.

Lemma backed_grow rq g tr tr' : backed rq g tr -> backed rq g (tr ++ tr').
Proof.
  intros [Hi Hs]. split; intros id Hid.
  - destruct (Hi id Hid) as (fname & url & st & H). exists fname, url, st.
    apply elem_of_app. by left.
  - destruct (Hs id Hid) as (fs & H). exists fs. apply elem_of_app. by left.
Qed.

Lemma backed_advance rq g tr ev :
  backed rq g tr -> backed rq (advance_ev ev g) (tr ++ entries rq ev).
Proof.
  intros Hb. pose proof (backed_grow rq g tr (entries rq ev) Hb) as [Hi Hs].
  destruct ev as [[]|]; try (by split); destruct ok; try (by split).
  - split; [|done]. cbn. intros id' [->|Hin]%elem_of_cons; [|by apply Hi].
    exists fname, blob_url, status. apply elem_of_app. right. apply list_elem_of_here.
  - split; [done|]. cbn. intros id' [->|Hin]%elem_of_cons; [|by apply Hs].
    exists fs. apply elem_of_app. right. apply list_elem_of_here.
Qed.

Lemma effect_documents_mono ev w w' id :
  effect ev w w' -> is_Some (documents w !! id) -> is_Some (documents w' !! id).
Proof.
  destruct ev as [[]|]; cbn; try (by intros [-> _]); destruct ok; try (by intros [-> _]).
  - intros (_ & -> & _) H. destruct (decide (id0 = id)) as [->|];
      [rewrite lookup_insert_eq | rewrite lookup_insert_ne]; eauto.
  - intros (d & _ & -> & _) H. destruct (decide (id0 = id)) as [->|];
      [rewrite lookup_insert_eq | rewrite lookup_insert_ne]; eauto.
Qed.

Lemma effect_rows_mono ev w w' r :
  effect ev w w' -> r ∈ field_rows w -> r ∈ field_rows w'.
Proof.
  destruct ev as [[]|]; cbn; try (by intros [_ ->]); destruct ok; try (by intros [_ ->]).
  - by intros (_ & _ & ->).
  - intros [_ ->] H. apply elem_of_app. by left.
  - by intros (d & _ & _ & ->).
Qed.

(* ================================================================== *)
(** * The handlers make their calls in order *)

Lemma get_health_disciplined : disciplined start get_health.
Proof. discipline. Qed.

Lemma get_documents_disciplined : disciplined start get_documents.
Proof. discipline. Qed.

Lemma get_document_disciplined id : disciplined start (get_document id).
Proof. discipline. Qed.

Lemma post_upload_disciplined req : disciplined start (post_upload req).
Proof. unfold post_upload, store_blob. discipline. Qed.

Lemma default_error_handler_disciplined err :
  disciplined start (default_error_handler err).
Proof. discipline. Qed.

(** A handler that flipped the status before saving the fields would
    not pass. *)
Example flip_before_save_not_disciplined id (fs : list Field) :
  ~ disciplined start
      (_ ← call (InsertDocument id [] [] "processing");
       _ ← call (UpdateDocumentStatus id "processed" None None);
       call (SaveExtractedFields id fs)).
Proof.
  intros [_ H]. destruct (H (Returned tt)) as [Hflip _].
  cbn in Hflip. specialize (Hflip eq_refl). by apply elem_of_nil in Hflip.
Qed.

(* ================================================================== *)
(** * The invariant of the server *)

(** What a request starts: one of the four handlers, or Express's
    default error handler. *)
Lemma accept_cases r w p w' :
  accept r w = (p, w') ->
  p = get_health \/ p = get_documents \/ (exists id, p = get_document id)
  \/ (exists req, p = post_upload req)
  \/ (exists err, p = default_error_handler err).
Proof.
  destruct r as [| |id|now m]; unfold accept.
  1-3: intros [= <- <-]; eauto 6.
  unfold upload_single. repeat case_match; simplify_eq; intros [= <- <-]; eauto 8.
Qed.

Lemma accept_frame r w p w' :
  accept r w = (p, w') ->
  documents w' = documents w /\ field_rows w' = field_rows w /\ trace w' = trace w /\
  disciplined start p.
Proof.
  destruct r as [| |id|now m]; unfold accept.
  1-3: intros [= <- <-]; split_and!;
    auto using get_health_disciplined, get_documents_disciplined,
      get_document_disciplined.
  unfold upload_single. repeat case_match; simplify_eq; intros [= <- <-];
    split_and!;
    auto using post_upload_disciplined, default_error_handler_disciplined.
Qed.

Lemma invariant_boot : invariant boot.
Proof.
  split; cbn.
  - intros rq p H. by apply elem_of_nil in H.
  - intros rq id fname url st H. by apply elem_of_nil in H.
  - intros rq id fs H. by apply elem_of_nil in H.
  - intros j rq id ty conf H. by rewrite lookup_nil in H.
  - intros id d H. by rewrite lookup_empty in H.
  - intros r H. by apply elem_of_nil in H.
Qed.

Lemma invariant_step s s' :
  invariant s -> step s s' -> invariant s'.
Proof.
  intros [Hfl Hins Hsav Hupd Hproc Hcons] Hstep.
  destruct Hstep as [r w fl n p w' Hacc | env w fl1 fl2 n rq X e k o w' Hex | w fl1 fl2 n rq out];
    cbn in *.
  - (* a request arrives *)
    apply accept_frame in Hacc as (Hd & Hr & Ht & Hp).
    split; cbn; unfold store_consistent; rewrite ?Hd, ?Hr, ?Ht; try done.
    intros rq q [Hin|Hnew]%elem_of_app; [by apply Hfl|].
    apply list_elem_of_singleton in Hnew as [= -> ->].
    exists start. split; [done|]. split; intros id H; by apply elem_of_nil in H.
  - (* a request in flight makes a call *)
    pose proof (exec_trace _ _ _ _ _ _ _ Hex) as [Ht _].
    pose proof (exec_effect _ _ _ _ _ _ _ Hex) as Heff.
    destruct (Hfl rq (Call e k)) as (g & [Hord Hk] & Hb).
    { apply elem_of_app. right. apply list_elem_of_here. }
    specialize (Hk o). rewrite advance_event in Hk.
    apply (in_order_event _ _ _ o) in Hord.
    set (ev := event_of e o) in *. clearbody ev. clear Hex.
    split; cbn; rewrite ?Ht.
    + intros rq' q [Hin|[Heq|Hin]%elem_of_cons]%elem_of_app.
      * destruct (Hfl rq' q) as (g' & Hd' & Hb'). { apply elem_of_app. by left. }
        exists g'. split; [done|]. by apply backed_grow.
      * injection Heq as -> ->. exists (advance_ev ev g). split; [done|].
        by apply backed_advance.
      * destruct (Hfl rq' q) as (g' & Hd' & Hb').
        { apply elem_of_app. right. by apply list_elem_of_further. }
        exists g'. split; [done|]. by apply backed_grow.
    + intros rq' id fname url st [Hin|Hin]%elem_of_app.
      * eapply effect_documents_mono; eauto.
      * destruct ev as [ev|]; cbn in Hin; [|by apply elem_of_nil in Hin].
        apply list_elem_of_singleton in Hin as [= <- <-]. cbn in Heff.
        destruct Heff as (_ & -> & _). rewrite lookup_insert_eq. eauto.
    + intros rq' id fs [Hin|Hin]%elem_of_app f Hf.
      * eapply effect_rows_mono; eauto.
      * destruct ev as [ev|]; cbn in Hin; [|by apply elem_of_nil in Hin].
        apply list_elem_of_singleton in Hin as [= <- <-]. cbn in Heff.
        destruct Heff as [_ ->]. apply elem_of_app. right.
        apply list_elem_of_fmap. by exists f.
    + intros j rq' id ty conf Hj.
      destruct ev as [ev|]; cbn in Hj; [|rewrite app_nil_r in Hj].
      * apply lookup_snoc_Some in Hj as [Hj|[-> [= -> <-]]].
        -- destruct (Hupd j rq' id ty conf Hj) as (i & fs & Hi & Hs).
           exists i, fs. split; [done|]. by apply lookup_app_l_Some.
        -- cbn in Hord. destruct Hb as [_ Hb].
           destruct (Hb id (Hord eq_refl)) as (fs & Hin).
           apply list_elem_of_lookup in Hin as [i Hi].
           exists i, fs. split; [by eapply lookup_lt_Some|]. by apply lookup_app_l_Some.
      * destruct (Hupd j rq' id ty conf Hj) as (i & fs & Hi & Hs).
        exists i, fs. split; [done|]. by apply lookup_app_l_Some.
    + intros id d Hd Hst.
      assert (documents w !! id = Some d /\ True \/
              exists ty conf, ev = Some (EvUpdateDocumentStatus id "processed" ty conf true))
        as [[Hold _]|(ty & conf & ->)].
      { destruct ev as [[]|]; cbn in Heff; try (destruct Heff as [<- _]; by left);
          destruct ok; try (destruct Heff as [<- _]; by left).
        - destruct Heff as (_ & Hdocs & _). rewrite Hdocs in Hd.
          destruct (decide (id0 = id)) as [->|Hne].
          + rewrite lookup_insert_eq in Hd. injection Hd as <-. cbn in *. done.
          + rewrite lookup_insert_ne in Hd by done. by left.
        - destruct Heff as (d0 & _ & Hdocs & _). rewrite Hdocs in Hd.
          destruct (decide (id0 = id)) as [->|Hne].
          + rewrite lookup_insert_eq in Hd. injection Hd as <-. cbn in Hst. subst.
            right. eauto.
          + rewrite lookup_insert_ne in Hd by done. by left. }
      * destruct (Hproc id d Hold Hst) as (j & rq' & ty & conf & Hj).
        exists j, rq', ty, conf. by apply lookup_app_l_Some.
      * exists (length (trace w)), rq, ty, conf. cbn.
        rewrite lookup_app_r by lia. by rewrite Nat.sub_diag.
    + intros r Hr.
      assert (r ∈ field_rows w \/
              exists fs ok, ev = Some (EvSaveExtractedFields (row_document r) fs ok))
        as [Hold|(fs & ok & ->)].
      { destruct ev as [[]|]; cbn in Heff; try (destruct Heff as [_ Hrows]; rewrite Hrows in Hr; by left);
          destruct ok; try (destruct Heff as [_ Hrows]; rewrite Hrows in Hr; by left).
        - destruct Heff as (_ & _ & Hrows). rewrite Hrows in Hr. by left.
        - destruct Heff as [_ Hrows]. rewrite Hrows in Hr.
          apply elem_of_app in Hr as [Hr|Hr]; [by left|].
          apply list_elem_of_fmap in Hr as (f & -> & _). right. cbn. eauto.
        - destruct Heff as (d0 & _ & _ & Hrows). rewrite Hrows in Hr. by left. }
      * eapply effect_documents_mono; eauto.
      * cbn in Hord. destruct Hb as [Hb _].
        destruct (Hb _ Hord) as (fname & url & st & Hin).
        eapply effect_documents_mono; eauto.
  - (* a finished handler leaves *)
    split; cbn; try done.
    intros rq' q Hin. apply Hfl. apply elem_of_app in Hin as [Hin|Hin]; apply elem_of_app;
      [by left | right; by apply list_elem_of_further].
Qed.
(** ** Reachable servers *)

Lemma invariant_reachable s : reachable s -> invariant s.
Proof.
  revert s. apply (rtc_ind_r (fun s => invariant s)).
  - apply invariant_boot.
  - intros s1 s2 _ Hstep IH. eapply invariant_step; eauto.
Qed.

(** A handler run without interruption is one way the event loop can
    go. *)
Lemma run_steps env rq (p : Async Response) w fl1 fl2 n :
  rtc step (mkServer w (fl1 ++ (rq, p) :: fl2) n)
           (mkServer (run env rq p w).2 (fl1 ++ fl2) n).
Proof.
  revert w. induction p as [out|X e k IH]; intros w.
  - apply rtc_once. apply step_done.
  - cbn [run]. destruct (exec env rq e w) as [o w'] eqn:E.
    eapply rtc_l; [by eapply step_call|]. apply IH.
Qed.

Lemma serve_reachable env r s :
  reachable s ->
  reachable (mkServer (serve env (next_rq s) r (world s)).2
               (inflight s) (S (next_rq s))).
Proof.
  intros H. destruct s as [w fl n]. cbn. unfold serve.
  destruct (accept r w) as [p w1] eqn:E.
  eapply rtc_trans; [exact H|].
  eapply rtc_l; [by eapply step_accept|].
  pose proof (run_steps env n p w1 fl [] (S n)) as Hrun.
  by rewrite app_nil_r in Hrun.
Qed.

(** ** Request numbers *)

Lemma numbered_step s s' : numbered s -> step s s' -> numbered s'.
Proof.
  intros (Hnd & Hfl & Htr) Hstep.
  destruct Hstep as [r w fl n p w' Hacc | env w fl1 fl2 n rq X e k o w' Hex
                    | w fl1 fl2 n rq out]; unfold numbered; cbn in *.
  - apply accept_frame in Hacc as (_ & _ & Ht & _). rewrite Ht.
    rewrite fmap_app. cbn. split_and!.
    + apply NoDup_app. split_and!; [done | | apply NoDup_singleton].
      intros rq Hin [= ->]%list_elem_of_singleton. apply Hfl in Hin. lia.
    + intros rq [Hin|[= ->]%list_elem_of_singleton]%elem_of_app; [|lia].
      apply Hfl in Hin. lia.
    + intros rq Hin. apply Htr in Hin. lia.
  - apply exec_trace in Hex as [Ht _]. rewrite Ht.
    rewrite fmap_app in *. cbn in *. split_and!; [done..|].
    rewrite fmap_app. intros rq' [Hin|Hin]%elem_of_app; [by apply Htr|].
    destruct (event_of e o); cbn in Hin; [|by apply elem_of_nil in Hin].
    apply list_elem_of_singleton in Hin as ->. apply Hfl.
    apply elem_of_app. right. apply list_elem_of_here.
  - rewrite fmap_app in *. cbn in *. split_and!; [| |done].
    + apply NoDup_app in Hnd as (H1 & H2 & H3). apply NoDup_cons in H3 as [_ H3].
      apply NoDup_app. split_and!; [done| |done].
      intros x Hx Hx'. apply (H2 x Hx). by apply list_elem_of_further.
    + intros rq' [Hin|Hin]%elem_of_app; apply Hfl; apply elem_of_app;
        [by left | right; by apply list_elem_of_further].
Qed.

Lemma numbered_reachable s : reachable s -> numbered s.
Proof.
  revert s. apply (rtc_ind_r (fun s => numbered s)).
  - split_and!; cbn; [apply NoDup_nil_2 | |]; intros rq H; by apply elem_of_nil in H.
  - intros s1 s2 _ Hstep IH. eapply numbered_step; eauto.
Qed.

(** ** The name busboy reports *)

Lemma last_segment_snoc s c :
  last_segment (s ++ [c])
    = if is_separator c then [] else last_segment s ++ [c].
Proof. unfold last_segment. by rewrite fold_left_app. Qed.

Lemma last_segment_stripped s : directory_stripped s (last_segment s).
Proof.
  induction s as [|c s [Hfree Hcut]] using rev_ind.
  - split; [constructor | by left].
  - rewrite last_segment_snoc. destruct (is_separator c) eqn:Hc.
    + split; [constructor|]. right. by exists s, c.
    + split.
      * apply Forall_app. split; [done|]. by repeat constructor.
      * destruct Hcut as [Heq|(dir & c' & Hc' & Heq)].
        -- left. by rewrite <- Heq.
        -- right. exists dir, c'. split; [done|].
           rewrite Heq at 1. by rewrite <- app_assoc.
Qed.

Lemma last_segment_plain s :
  Forall (fun c => is_separator c = false) s -> last_segment s = s.
Proof.
  induction s as [|c s IH] using rev_ind; [done|].
  intros [Hs Hc]%Forall_app. apply Forall_inv in Hc.
  rewrite last_segment_snoc, Hc. by rewrite IH.
Qed.

(** Only one name is the given one without its directory part. *)
Lemma directory_stripped_unique full n1 n2 :
  directory_stripped full n1 -> directory_stripped full n2 -> n1 = n2.
Proof.
  intros H1 H2.
  assert (forall n, directory_stripped full n -> n = last_segment full) as Hu.
  { clear. intros n [Hfree Hcut].
    destruct Hcut as [->|(dir & c & Hc & ->)].
    - symmetry. by apply last_segment_plain.
    - induction n as [|c' n IH] using rev_ind.
      + by rewrite last_segment_snoc, Hc.
      + apply Forall_app in Hfree as [Hn Hc']. apply Forall_inv in Hc'.
        rewrite app_comm_cons, app_assoc, last_segment_snoc, Hc'.
        by rewrite <- IH. }
  by rewrite (Hu n1 H1), (Hu n2 H2).
Qed.

Lemma busboy_basename_accepted p :
  accepts p = true ->
  busboy_basename (part_filename p) = last_segment (part_filename p).
Proof.
  intros [Hname _]%andb_true_iff. revert Hname. unfold busboy_basename.
  by destruct (_ || _).
Qed.

Lemma upload_single_accepted now p texts w :
  accepts p = true ->
  upload_single now (mkMultipart (Some p) texts) w
    = (Returned (mkRequest (Some (received now p)) texts),
       set_disk (<[path (received now p) := part_bytes p]> (disk w)) w).
Proof.
  intros [Hname Hfield]%andb_true_iff.
  unfold upload_single. cbn [file_part text_parts]. by rewrite Hname, Hfield.
Qed.

(** ** The upload handler, by cases *)

Lemma serve_upload env rq now p texts w :
  accepts p = true ->
  serve env rq (POST_upload now (mkMultipart (Some p) texts)) w =
  run env rq (post_upload (mkRequest (Some (received now p)) texts))
    (set_disk (<[path (received now p) := part_bytes p]> (disk w)) w).
Proof.
  intros [Hname Hfield]%andb_true_iff.
  unfold serve, accept, upload_single. cbn [file_part text_parts].
  by rewrite Hname, Hfield.
Qed.

Lemma serve_upload_refused env rq now p texts w :
  refuses p = true ->
  serve env rq (POST_upload now (mkMultipart (Some p) texts)) w =
  (Returned (mkResponse 500 (BErrorPage "Unexpected field")),
   log rq (EvConsoleError "Unexpected field") w).
Proof.
  intros [Hname Hfield]%andb_true_iff. apply negb_true_iff in Hfield.
  unfold serve, accept, upload_single. cbn [file_part text_parts].
  by rewrite Hname, Hfield.
Qed.

Lemma serve_upload_skipped env rq now p texts w :
  truthy_str (busboy_basename (part_filename p)) = false ->
  serve env rq (POST_upload now (mkMultipart (Some p) texts)) w =
  (Returned (mkResponse 400 (BError "no file uploaded")), w).
Proof.
  intros Hname.
  unfold serve, accept, upload_single. cbn [file_part text_parts].
  by rewrite Hname.
Qed.

Lemma serve_upload_none env rq now texts w :
  serve env rq (POST_upload now (mkMultipart None texts)) w =
  (Returned (mkResponse 400 (BError "no file uploaded")), w).
Proof. reflexivity. Qed.

(** The three things multer can do with a file part. *)
Lemma file_part_cases p :
  accepts p = true \/ refuses p = true
  \/ truthy_str (busboy_basename (part_filename p)) = false.
Proof.
  unfold accepts, refuses.
  destruct (truthy_str (busboy_basename (part_filename p))); [|by right; right].
  destruct (bool_decide (part_field p = upload_field)); [by left | by right; left].
Qed.

(** Only a file part multer lets through is answered 200. *)
Lemma upload_200_accepted env rq now m w id a w1 :
  serve env rq (POST_upload now m) w
    = (Returned (mkResponse 200 (BUploaded id a)), w1) ->
  exists p, file_part m = Some p /\ accepts p = true.
Proof.
  destruct m as [[p|] texts]; [|by rewrite serve_upload_none].
  destruct (file_part_cases p) as [H|[H|H]].
  - intros _. by exists p.
  - by rewrite serve_upload_refused.
  - by rewrite serve_upload_skipped.
Qed.

Lemma upload_run env rq f texts w :
  let r := run env rq (post_upload (mkRequest (Some f) texts)) w in
  r.1 = Returned (response_after env f w) /\
  disk r.2 = disk w /\
  documents r.2 = documents_after env f w /\
  field_rows r.2 = field_rows_after env f w.
Proof.
  unfold post_upload, store_blob. run_cases.
  all: unfold response_after, documents_after,
    field_rows_after, upload_fails, insert_fails,
    analyze_fails, save_fails, update_fails,
    analyzed_fields, processing_row,
    resolved_url, blob_name;
    use_cases; cbn; use_cases; cbn;
    rewrite ?orb_true_r, ?insert_insert_eq; cbn.
  all: done.
Qed.

Lemma upload_trace env rq f texts w :
  let r := run env rq (post_upload (mkRequest (Some f) texts)) w in
  trace r.2 = trace w ++ new_events w r.2 /\
  Forall (fun e => e.1 = rq /\ upload_event env f e.2) (new_events w r.2) /\
  (rq, EvInsertDocument (uuid env) (originalname f) (resolved_url env f)
         "processing" (negb (insert_fails env w))) ∈ new_events w r.2.
Proof.
  unfold post_upload, store_blob. run_cases.
  all: unfold new_events, log; cbn; rewrite <- ?app_assoc; cbn;
    rewrite drop_app_length.
  all: unfold upload_event, insert_fails, analyzed_fields,
    resolved_url, blob_name;
    use_cases; cbn; use_cases; cbn.
  all: split_and!; [ done | repeat constructor | find_event ].
Qed.

(** ** The read handler, by cases *)

Lemma get_document_run env rq id w :
  (serve env rq (GET_document id) w).1 =
  Returned
    (if store_down env OpGet then mkResponse 500 (BError "db error") else
     match documents w !! id with
     | None => mkResponse 404 (BError "not found")
     | Some d =>
         if store_down env OpGetFields then mkResponse 500 (BError "db error")
         else mkResponse 200 (BDocument d (getFields id (field_rows w)))
     end).
Proof.
  unfold serve, accept, get_document. run_cases; done.
Qed.

(** ** The steps of an upload, one by one *)

Lemma upload_succeeds env f w :
  upload_fails env f w = false ->
  documents w !! uuid env = None /\
  exists a, analyze env (resolved_url env f) (path f) = Returned a /\
    response_after env f w = mkResponse 200 (BUploaded (uuid env) a) /\
    documents_after env f w =
      <[uuid env := mkDocument (uuid env) (originalname f) (resolved_url env f)
                      "processed" (str_or_null (documentType a))
                      (num_or_null (confidence a))]> (documents w) /\
    field_rows_after env f w =
      field_rows w ++ map (field_row (uuid env)) (list_or_empty (fields a)).
Proof.
  intros H. pose proof H as H0. unfold upload_fails in H0.
  apply orb_false_elim in H0 as [H0 Hupd].
  apply orb_false_elim in H0 as [H0 Hsave].
  apply orb_false_elim in H0 as [Hins Han].
  unfold response_after, documents_after,
    field_rows_after, analyzed_fields.
  rewrite H, Hins, Han, Hsave, Hupd. cbn.
  unfold analyze_fails in Han. unfold insert_fails in Hins.
  apply orb_false_elim in Hins as [_ Hfree].
  split; [by destruct (documents w !! uuid env)|].
  destruct (analyze env (resolved_url env f) (path f)) as [a|err]; [|done].
  by exists a.
Qed.

Lemma upload_fails_true env f w :
  upload_fails env f w = true <->
  insert_fails env w = true \/ analyze_fails env f = true \/
  save_fails env = true \/ update_fails env = true.
Proof.
  unfold upload_fails. rewrite !orb_true_iff. tauto.
Qed.

Lemma response_after_200 env f w id a :
  response_after env f w = mkResponse 200 (BUploaded id a) ->
  upload_fails env f w = false /\ id = uuid env /\
  analyze env (resolved_url env f) (path f) = Returned a.
Proof.
  unfold response_after.
  destruct (upload_fails env f w); [done|].
  destruct (analyze env (resolved_url env f) (path f)); [|done].
  by intros [= -> ->].
Qed.

(** C1: after a successful upload, [GET /document/:id] with the
    returned [documentId] answers 200 with that document, its status
    [processed], and the fields of the document: those the upload
    saved, after any the table already held for the id (none when every
    row of the table belongs to a document). *)
Theorem upload_then_get_document env rq now m w id a w1 env' rq' :
  serve env rq (POST_upload now m) w
    = (Returned (mkResponse 200 (BUploaded id a)), w1) ->
  store_down env' OpGet = false ->
  store_down env' OpGetFields = false ->
  exists d,
    (serve env' rq' (GET_document id) w1).1 =
      Returned (mkResponse 200
        (BDocument d (getFields id (field_rows w)
                      ++ map (field_row id) (list_or_empty (fields a))))) /\
    doc_id d = id /\
    doc_status d = "processed" /\
    (store_consistent w -> getFields id (field_rows w) = []).
Proof.
  intros Hrun.
  destruct (upload_200_accepted _ _ _ _ _ _ _ _ Hrun) as (p & Hp & Hacc).
  destruct m as [fp texts]. cbn in Hp. subst fp. revert Hrun.
  rewrite serve_upload by done. set (f := received now p). set (w0 := set_disk _ w).
  intros Hrun Hget Hfields.
  destruct (upload_run env rq f texts w0) as (Hout & _ & Hdocs & Hrows).
  rewrite Hrun in Hout, Hdocs, Hrows. cbn [fst snd] in *.
  injection Hout as Hout. symmetry in Hout.
  apply response_after_200 in Hout as (Hok & -> & Ha).
  apply upload_succeeds in Hok as (Hfree & a' & Ha' & _ & Hdocs' & Hrows').
  rewrite Ha in Ha'. injection Ha' as <-.
  rewrite Hdocs' in Hdocs. rewrite Hrows' in Hrows.
  subst w0. cbn [documents field_rows set_disk] in *.
  rewrite get_document_run, Hget, Hfields, Hdocs, lookup_insert_eq, Hrows.
  rewrite getFields_app, getFields_own.
  eexists. split_and!; try reflexivity.
  intros Hc. by apply getFields_fresh.
Qed.

(** C3: for a file multer lets through, when the insert, the analyzer,
    the save of the fields or the status update throws, the response
    is 500 [upload failed]; the
    uploaded file stays on disk, the row stays as inserted (status
    [processing]) when the insert went through, and the field rows
    stay as saved when the save went through. *)
Theorem upload_failure_leaves_state env rq now p texts w out w' :
  accepts p = true ->
  serve env rq (POST_upload now (mkMultipart (Some p) texts)) w = (out, w') ->
  upload_fails env (received now p) w = true ->
  out = Returned (mkResponse 500 (BError "upload failed")) /\
  disk w' = <[path (received now p) := part_bytes p]> (disk w) /\
  disk w' !! path (received now p) = Some (part_bytes p) /\
  documents w' =
    (if insert_fails env w then documents w
     else <[uuid env := processing_row env (received now p)]> (documents w)) /\
  field_rows w' =
    (if insert_fails env w || analyze_fails env (received now p) || save_fails env
     then field_rows w
     else field_rows w
          ++ map (field_row (uuid env)) (analyzed_fields env (received now p))).
Proof.
  intros Hacc.
  rewrite serve_upload by done. set (f := received now p). set (w0 := set_disk _ w).
  intros Hrun Hfail.
  destruct (upload_run env rq f texts w0) as (Hout & Hdisk & Hdocs & Hrows).
  rewrite Hrun in Hout, Hdisk, Hdocs, Hrows. cbn [fst snd] in *.
  rewrite Hout, Hdisk, Hdocs, Hrows. subst w0. cbn [disk set_disk].
  rewrite lookup_insert_eq.
  unfold response_after, documents_after, field_rows_after.
  change (upload_fails env f (set_disk (<[path f:=part_bytes p]> (disk w)) w))
    with (upload_fails env f w).
  change (insert_fails env (set_disk (<[path f:=part_bytes p]> (disk w)) w))
    with (insert_fails env w).
  rewrite Hfail. split_and!; try reflexivity.
  unfold upload_fails, analyze_fails in Hfail.
  destruct (insert_fails env w); [done|].
  destruct (analyze env (resolved_url env f) (path f)); [|done].
  cbn in Hfail. by rewrite Hfail.
Qed.

(** ** The storage step *)

Lemma resolved_url_fallback env f :
  blob_upload_fails env f = true -> resolved_url env f = path f.
Proof.
  unfold blob_upload_fails, resolved_url.
  destruct (truthy_env (connection_string env)); [|done].
  by destruct (uploadLocalFile env (path f) (blob_name f)).
Qed.

Lemma resolved_url_local env f :
  truthy_env (connection_string env) = false -> resolved_url env f = path f.
Proof. unfold resolved_url. by intros ->. Qed.

Lemma truthy_env_Some v :
  truthy_env v = true <-> exists s, v = Some s /\ s <> [].
Proof.
  split.
  - destruct v as [[|c s]|]; cbn; try done. intros _. by exists (c :: s).
  - intros (s & -> & Hs). by destruct s.
Qed.

(** What the upload does once the location is the local path. *)
Lemma after_local env env' f w :
  uuid env' = uuid env -> analyze env' = analyze env ->
  store_down env' = store_down env ->
  resolved_url env f = path f -> resolved_url env' f = path f ->
  response_after env f w = response_after env' f w /\
  documents_after env f w = documents_after env' f w /\
  field_rows_after env f w = field_rows_after env' f w.
Proof.
  intros Hid Han Hdown Hurl Hurl'.
  unfold response_after, documents_after,
    field_rows_after, upload_fails, insert_fails,
    analyze_fails, save_fails, update_fails,
    analyzed_fields, processing_row.
  by rewrite Hid, Han, Hdown, Hurl, Hurl'.
Qed.

Lemma upload_new_events env rq now p texts w out w' :
  accepts p = true ->
  serve env rq (POST_upload now (mkMultipart (Some p) texts)) w = (out, w') ->
  (forall e, e ∈ new_events w w' -> upload_event env (received now p) e.2) /\
  (rq, EvInsertDocument (uuid env) (originalname (received now p))
         (resolved_url env (received now p)) "processing"
         (negb (insert_fails env w))) ∈ new_events w w'.
Proof.
  intros Hacc.
  rewrite serve_upload by done. set (f := received now p). set (w0 := set_disk _ w).
  intros Hrun.
  destruct (upload_trace env rq f texts w0) as (_ & Hall & Hins).
  rewrite Hrun in Hall, Hins. cbn [fst snd] in *. split; [|exact Hins].
  intros e He. rewrite Forall_forall in Hall. by apply Hall.
Qed.

Lemma upload_row env rq now p texts w out w' :
  accepts p = true ->
  serve env rq (POST_upload now (mkMultipart (Some p) texts)) w = (out, w') ->
  insert_fails env w = false ->
  exists d, documents w' !! uuid env = Some d /\
    doc_id d = uuid env /\
    doc_filename d = originalname (received now p) /\
    doc_blob_url d = resolved_url env (received now p).
Proof.
  intros Hacc.
  rewrite serve_upload by done. set (f := received now p). set (w0 := set_disk _ w).
  intros Hrun Hins.
  destruct (upload_run env rq f texts w0) as (_ & _ & Hdocs & _).
  rewrite Hrun in Hdocs. cbn [fst snd] in *. rewrite Hdocs.
  unfold documents_after.
  change (insert_fails env w0) with (insert_fails env w). rewrite Hins.
  destruct (analyze env (resolved_url env f) (path f));
    [destruct (save_fails env || update_fails env)|];
    rewrite lookup_insert_eq; eexists; split_and!; reflexivity.
Qed.

(** C4: for a file multer lets through, with a connection string set
    and the blob upload throwing, the handler goes on with the local
    path: the insert is made with
    [blob_url] the local path, the analyzer is called on the local
    path, the stored row has it, and response and tables are what they
    are with no connection string at all; so the response is 200
    unless one of the later steps throws. *)
Theorem blob_failure_falls_back env rq now p texts w out w' :
  accepts p = true ->
  serve env rq (POST_upload now (mkMultipart (Some p) texts)) w = (out, w') ->
  blob_upload_fails env (received now p) = true ->
  (rq, EvInsertDocument (uuid env) (originalname (received now p))
         (path (received now p))
         "processing" (negb (insert_fails env w))) ∈ new_events w w' /\
  (forall rq' url filepath ok,
     (rq', EvAnalyze url filepath ok) ∈ new_events w w' ->
     url = path (received now p)) /\
  (insert_fails env w = false ->
   exists d, documents w' !! uuid env = Some d /\
     doc_blob_url d = path (received now p)) /\
  (let r := serve (without_storage env) rq
              (POST_upload now (mkMultipart (Some p) texts)) w in
   out = r.1 /\ documents w' = documents r.2 /\ field_rows w' = field_rows r.2) /\
  (upload_fails env (received now p) w = false ->
   exists a, out = Returned (mkResponse 200 (BUploaded (uuid env) a))).
Proof.
  intros Hacc.
  intros Hrun Hblob.
  pose proof (resolved_url_fallback env _ Hblob) as Hurl.
  destruct (upload_new_events _ _ _ _ _ _ _ _ Hacc Hrun) as [Hall Hins].
  rewrite Hurl in Hins. split_and!.
  - exact Hins.
  - intros rq' url filepath ok He. apply Hall in He as [-> _]. exact Hurl.
  - intros Hfree.
    destruct (upload_row _ _ _ _ _ _ _ _ Hacc Hrun Hfree) as (d & Hd & _ & _ & Hb).
    exists d. split; [done|]. by rewrite Hb.
  - revert Hrun. rewrite !serve_upload by done.
    set (f := received now p). set (w0 := set_disk _ w). intros Hrun.
    destruct (upload_run env rq f texts w0) as (Hout & _ & Hdocs & Hrows).
    destruct (upload_run (without_storage env) rq f texts w0)
      as (Hout' & _ & Hdocs' & Hrows').
    rewrite Hrun in Hout, Hdocs, Hrows. cbn [fst snd] in *.
    destruct (after_local env (without_storage env) f w0)
      as (Hr & Hd & Hf); try done.
    rewrite Hout, Hout', Hdocs, Hdocs', Hrows, Hrows', Hr, Hd, Hf. done.
  - revert Hrun. rewrite serve_upload by done.
    set (f := received now p). set (w0 := set_disk _ w). intros Hrun Hok.
    destruct (upload_run env rq f texts w0) as (Hout & _).
    rewrite Hrun in Hout. cbn [fst] in Hout.
    apply upload_succeeds in Hok as (_ & a & _ & Hresp & _).
    exists a. rewrite Hout. f_equal. exact Hresp.
Qed.

(** C7: for a file multer lets through, with no connection string the
    storage service is never called and every insert carries the local path as [blob_url], as does the
    stored row; and whenever the storage service is called, the
    connection string is set to a non-empty value. *)
Theorem local_path_without_storage env rq now p texts w out w' :
  accepts p = true ->
  serve env rq (POST_upload now (mkMultipart (Some p) texts)) w = (out, w') ->
  (connection_string env = None ->
     (forall rq' filepath blobname ok,
        (rq', EvUploadLocalFile filepath blobname ok) ∉ new_events w w') /\
     (forall rq' id fname url st ok,
        (rq', EvInsertDocument id fname url st ok) ∈ new_events w w' ->
        url = path (received now p)) /\
     (insert_fails env w = false ->
      exists d, documents w' !! uuid env = Some d /\
        doc_blob_url d = path (received now p))) /\
  (forall rq' filepath blobname ok,
     (rq', EvUploadLocalFile filepath blobname ok) ∈ new_events w w' ->
     exists s, connection_string env = Some s /\ s <> []).
Proof.
  intros Hacc.
  intros Hrun.
  destruct (upload_new_events _ _ _ _ _ _ _ _ Hacc Hrun) as [Hall _].
  split.
  - intros Hnone.
    assert (truthy_env (connection_string env) = false) as Hfalsy
      by (by rewrite Hnone).
    pose proof (resolved_url_local env (received now p) Hfalsy) as Hurl.
    split_and!.
    + intros rq' filepath blobname ok He. apply Hall in He as [Ht _].
      cbn in Ht. congruence.
    + intros rq' id fname url st ok He. apply Hall in He as (_ & _ & -> & _).
      exact Hurl.
    + intros Hfree.
      destruct (upload_row _ _ _ _ _ _ _ _ Hacc Hrun Hfree) as (d & Hd & _ & _ & Hb).
      exists d. split; [done|]. by rewrite Hb.
  - intros rq' filepath blobname ok He. apply Hall in He as [Ht _].
    by apply truthy_env_Some.
Qed.

(** C9, corrected: the name the handler works with is not the name
    the client sent but what busboy makes of it, the name without its
    directory part.  The file is written to the upload directory under
    the decimal timestamp, an underscore and that base name with every
    whitespace run replaced by an underscore; the base name is what
    every insert carries as [filename] and what the stored row has.  It
    is the client's name, unchanged, exactly when that has no directory
    part. *)
Theorem stored_name_and_original_name env rq now p texts w out w' :
  accepts p = true ->
  serve env rq (POST_upload now (mkMultipart (Some p) texts)) w = (out, w') ->
  (upload_single now (mkMultipart (Some p) texts) w).1
    = Returned (mkRequest (Some (received now p)) texts) /\
  directory_stripped (part_filename p) (originalname (received now p)) /\
  filename (received now p)
    = decimal now ++ js "_" ++ underscore_runs (originalname (received now p)) /\
  path (received now p) = path_join UPLOAD_DIR (filename (received now p)) /\
  disk w' !! path (received now p) = Some (part_bytes p) /\
  (forall rq' id fname url st ok,
     (rq', EvInsertDocument id fname url st ok) ∈ new_events w w' ->
     fname = originalname (received now p)) /\
  (insert_fails env w = false ->
   exists d, documents w' !! uuid env = Some d /\
     doc_filename d = originalname (received now p)) /\
  (originalname (received now p) = part_filename p
   <-> Forall (fun c => is_separator c = false) (part_filename p)).
Proof.
  intros Hacc Hrun.
  destruct (upload_new_events _ _ _ _ _ _ _ _ Hacc Hrun) as [Hall _].
  pose proof (busboy_basename_accepted p Hacc) as Hbase.
  pose proof (last_segment_stripped (part_filename p)) as Hstrip.
  split_and!.
  - by rewrite upload_single_accepted.
  - cbn. by rewrite Hbase.
  - cbn. unfold storage_filename. by rewrite replace_ws_runs.
  - reflexivity.
  - revert Hrun. rewrite serve_upload by done.
    set (f := received now p). set (w0 := set_disk _ w). intros Hrun.
    destruct (upload_run env rq f texts w0) as (_ & Hdisk & _).
    rewrite Hrun in Hdisk. cbn [snd] in Hdisk. rewrite Hdisk.
    subst w0. cbn [disk set_disk]. by rewrite lookup_insert_eq.
  - intros rq' id fname url st ok He. by apply Hall in He as (_ & -> & _).
  - intros Hfree.
    destruct (upload_row _ _ _ _ _ _ _ _ Hacc Hrun Hfree) as (d & Hd & _ & Hn & _).
    by exists d.
  - cbn. rewrite Hbase. split.
    + intros <-. by destruct Hstrip.
    + apply last_segment_plain.
Qed.

(** C5: with no file part the response is 400 [no file uploaded],
    whatever else the request carries and whatever the surroundings
    do. *)
Theorem upload_without_file_is_400 env rq now m w :
  file_part m = None ->
  (serve env rq (POST_upload now m) w).1
    = Returned (mkResponse 400 (BError "no file uploaded")).
Proof.
  intros Hnone. unfold serve, accept, upload_single. rewrite Hnone.
  reflexivity.
Qed.

(** C6: [GET /document/:id] answers 404 [not found] when the store has
    no document with the id, 200 with the document and all the field
    rows of that id when it has one, and 500 [db error] when a store
    read fails. *)
Theorem get_document_responses env rq id w :
  (store_down env OpGet = false -> documents w !! id = None ->
   (serve env rq (GET_document id) w).1
     = Returned (mkResponse 404 (BError "not found"))) /\
  (forall d,
     store_down env OpGet = false -> store_down env OpGetFields = false ->
     documents w !! id = Some d ->
     (serve env rq (GET_document id) w).1
       = Returned (mkResponse 200 (BDocument d (getFields id (field_rows w)))) /\
     forall r, r ∈ getFields id (field_rows w)
               <-> r ∈ field_rows w /\ row_document r = id) /\
  (store_down env OpGet = true \/
   (is_Some (documents w !! id) /\ store_down env OpGetFields = true) ->
   (serve env rq (GET_document id) w).1
     = Returned (mkResponse 500 (BError "db error"))).
Proof.
  rewrite get_document_run. split_and!.
  - by intros -> ->.
  - intros d -> -> ->. split; [done|]. intros r. apply getFields_elem.
  - intros [->|[[d ->] ->]]; [done|]. by destruct (store_down env OpGet).
Qed.

(** C10: with no file part the handler makes no call at all: the world
    is as it was, with no id drawn, no row inserted and no field
    saved. *)
Theorem upload_without_file_touches_nothing env rq now m w :
  file_part m = None ->
  let w' := (serve env rq (POST_upload now m) w).2 in
  w' = w /\
  new_events w w' = [] /\
  documents w' = documents w /\
  field_rows w' = field_rows w /\
  disk w' = disk w.
Proof.
  intros Hnone. unfold serve, accept, upload_single. rewrite Hnone. cbn.
  split_and!; try reflexivity. unfold new_events. by rewrite drop_all.
Qed.

(** ** What a successful upload persists *)

Lemma str_or_null_None v :
  str_or_null v = None <-> v = None \/ v = Some [].
Proof.
  destruct v as [[|c s]|]; cbn; split; try done; eauto.
  - intros [H|H]; discriminate.
Qed.

Lemma num_or_null_None v :
  num_or_null v = None <->
  v = None \/ exists x, v = Some x /\ (is_zero x || is_nan x) = true.
Proof.
  unfold num_or_null, truthy_num. destruct v as [x|]; [|split; eauto].
  destruct (is_zero x || is_nan x) eqn:E; cbn [negb]; split; try done.
  - intros _. right. by exists x.
  - intros [H|(y & Hy & H)]; [done|]. injection Hy as <-. congruence.
Qed.

Lemma upload_persists env rq now p texts w id a w1 :
  serve env rq (POST_upload now (mkMultipart (Some p) texts)) w
    = (Returned (mkResponse 200 (BUploaded id a)), w1) ->
  documents w1 !! id =
    Some (mkDocument id (originalname (received now p))
            (resolved_url env (received now p))
            "processed" (str_or_null (documentType a))
            (num_or_null (confidence a))) /\
  field_rows w1 = field_rows w ++ map (field_row id) (list_or_empty (fields a)).
Proof.
  intros Hrun.
  destruct (upload_200_accepted _ _ _ _ _ _ _ _ Hrun) as (p' & [= <-] & Hacc).
  revert Hrun.
  rewrite serve_upload by done. set (f := received now p). set (w0 := set_disk _ w).
  intros Hrun.
  destruct (upload_run env rq f texts w0) as (Hout & _ & Hdocs & Hrows).
  rewrite Hrun in Hout, Hdocs, Hrows. cbn [fst snd] in *.
  injection Hout as Hout. symmetry in Hout.
  apply response_after_200 in Hout as (Hok & -> & Ha).
  apply upload_succeeds in Hok as (_ & a' & Ha' & _ & Hdocs' & Hrows').
  rewrite Ha in Ha'. injection Ha' as <-.
  rewrite Hdocs, Hdocs', Hrows, Hrows', lookup_insert_eq. done.
Qed.

(* ================================================================== *)
(** * Rules every handler keeps *)

Section Guarded.
Context {G : Type}.
Context (ok : G -> forall X, Ext X -> Prop).
Context (adv : forall X, Ext X -> Outcome X -> G -> G).
Context (J : nat -> G -> list (nat * Event) -> Prop).
Context (g0 : G).

Hypothesis handlers_guarded :
  forall r w p w', accept r w = (p, w') -> guarded ok adv g0 p.
Hypothesis J_start : forall rq tr, J rq g0 tr.
Hypothesis J_grow : forall rq g tr tr', J rq g tr -> J rq g (tr ++ tr').
Hypothesis J_advance : forall rq g tr X (e : Ext X) o,
  J rq g tr -> J rq (adv X e o g) (tr ++ entries rq (event_of e o)).

Local Abbreviation flows_guarded s :=
  (forall rq p, (rq, p) ∈ inflight s ->
     exists g, guarded ok adv g p /\ J rq g (trace (world s))).

Lemma flows_guarded_step s s' : flows_guarded s -> step s s' -> flows_guarded s'.
Proof.
  intros Hfl Hstep.
  destruct Hstep as [r w fl n p w' Hacc | env w fl1 fl2 n rq X e k o w' Hex
                    | w fl1 fl2 n rq out]; cbn in *.
  - pose proof (handlers_guarded _ _ _ _ Hacc) as Hp.
    apply accept_frame in Hacc as (_ & _ & Ht & _). rewrite Ht.
    intros rq q [Hin|Hnew]%elem_of_app; [by apply Hfl|].
    apply list_elem_of_singleton in Hnew as [= -> ->]. by exists g0.
  - apply exec_trace in Hex as [Ht _]. rewrite Ht.
    intros rq' q [Hin|[Heq|Hin]%elem_of_cons]%elem_of_app.
    + destruct (Hfl rq' q) as (g & Hg & Hj); [apply elem_of_app; by left|].
      exists g. split; [done|]. by apply J_grow.
    + injection Heq as -> ->.
      destruct (Hfl rq (Call e k)) as (g & [_ Hk] & Hj).
      { apply elem_of_app. right. apply list_elem_of_here. }
      exists (adv X e o g). split; [apply Hk | by apply J_advance].
    + destruct (Hfl rq' q) as (g & Hg & Hj).
      { apply elem_of_app. right. by apply list_elem_of_further. }
      exists g. split; [done|]. by apply J_grow.
  - intros rq' q Hin. apply Hfl.
    apply elem_of_app in Hin as [Hin|Hin]; apply elem_of_app;
      [by left | right; by apply list_elem_of_further].
Qed.

(** A property of the world that every allowed call preserves holds in
    every state the server can reach. *)
Lemma guarded_invariant (P : World -> Prop) :
  P empty_world ->
  (forall w d, P w -> P (set_disk d w)) ->
  (forall env rq X (e : Ext X) g w o w',
     ok g X e -> J rq g (trace w) -> exec env rq e w = (o, w') -> P w -> P w') ->
  forall s, reachable s -> P (world s).
Proof.
  intros Hboot Hdisk Hcall.
  enough (forall s, reachable s -> flows_guarded s /\ P (world s)) as H
    by (intros s Hs; by apply H).
  apply (rtc_ind_r (fun s => flows_guarded s /\ P (world s))).
  - split; [|done]. intros rq p Hin. by apply elem_of_nil in Hin.
  - intros s1 s2 _ Hstep [Hfl HP].
    split; [by eapply flows_guarded_step|].
    destruct Hstep as [r w fl n p w' Hacc | env w fl1 fl2 n rq X e k o w' Hex
                      | w fl1 fl2 n rq out]; cbn in *.
    + destruct r; cbn in Hacc; try (injection Hacc as <- <-; done).
      unfold upload_single in Hacc.
      repeat case_match; simplify_eq; first [done | by apply Hdisk].
    + destruct (Hfl rq (Call e k)) as (g & [Hok _] & Hj).
      { apply elem_of_app. right. apply list_elem_of_here. }
      by eapply Hcall.
    + done.
Qed.

End Guarded.

(** Check [guarded] for a handler body. *)
Ltac check_guarded :=
  repeat (cbn in *;
    match goal with
    | |- _ /\ _ => split
    | |- forall _, _ => intro
    | o : Outcome _ |- _ => destruct o
    | |- True => exact I
    | |- _ = _ => reflexivity
    | |- _ ∈ _ :: _ => apply list_elem_of_here || apply list_elem_of_further
    | |- context [if ?b then _ else _] => destruct b
    | |- context [match ?x with _ => _ end] => destruct x
    end).

Lemma handlers_literal_status r w p w' :
  accept r w = (p, w') -> guarded literal_status stay tt p.
Proof.
  intros [->|[->|[[id ->]|[[req ->]|[err ->]]]]]%accept_cases;
    unfold get_health, get_documents, get_document, post_upload, store_blob,
      default_error_handler;
    check_guarded.
Qed.

Lemma handlers_insert_drawn r w p w' :
  accept r w = (p, w') -> guarded insert_drawn draw [] p.
Proof.
  intros [->|[->|[[id ->]|[[req ->]|[err ->]]]]]%accept_cases;
    unfold get_health, get_documents, get_document, post_upload, store_blob,
      default_error_handler;
    check_guarded.
Qed.

Lemma disciplined_guarded {A} g (p : Prog A) :
  disciplined g p <-> guarded in_order_rule advance_rule g p.
Proof.
  revert g. induction p as [a|X e k IH]; intros g; [done|].
  cbn. unfold in_order_rule at 1. unfold advance_rule at 1.
  split; intros [He Hk]; (split; [done|]); intros o; by apply IH.
Qed.

Lemma handlers_in_order r w p w' :
  accept r w = (p, w') -> guarded in_order_rule advance_rule start p.
Proof.
  intros (_ & _ & _ & H)%accept_frame. by apply disciplined_guarded.
Qed.

Lemma literal_status_event X u (e : Ext X) o :
  literal_status u X e -> literal_status_ev (event_of e o).
Proof. destruct e; cbn; try done. by destruct o. Qed.

Lemma insert_drawn_event X g (e : Ext X) o :
  insert_drawn g X e -> insert_drawn_ev g (event_of e o).
Proof. destruct e; cbn; try done. by destruct o. Qed.

Lemma draw_event X g (e : Ext X) o : draw X e o g = draw_ev (event_of e o) g.
Proof. destruct e; cbn; try done. by destruct o. Qed.

Lemma drawn_in_grow rq g tr tr' : drawn_in rq g tr -> drawn_in rq g (tr ++ tr').
Proof. intros H id Hid. apply elem_of_app. left. by apply H. Qed.

Lemma drawn_in_advance rq g tr X (e : Ext X) o :
  drawn_in rq g tr -> drawn_in rq (draw X e o g) (tr ++ entries rq (event_of e o)).
Proof.
  intros H. rewrite draw_event.
  destruct (event_of e o) as [[]|]; try (by apply drawn_in_grow).
  intros id' [->|Hin]%elem_of_cons; apply elem_of_app;
    [right; apply list_elem_of_here | left; by apply H].
Qed.

Lemma backed_advance_rule rq g tr X (e : Ext X) o :
  backed rq g tr -> backed rq (advance_rule X e o g) (tr ++ entries rq (event_of e o)).
Proof.
  intros H. unfold advance_rule. rewrite advance_event. by apply backed_advance.
Qed.

(** ** Invariants of the tables *)

(** Every row is [processing] with no type and no confidence, or
    [processed]: the handlers write no other status. *)
Theorem reachable_status s :
  reachable s ->
  forall id d, documents (world s) !! id = Some d -> status_ok d.
Proof.
  revert s.
  refine (guarded_invariant literal_status stay (fun _ _ _ => True) tt
            handlers_literal_status _ _ _
            (fun w => forall id d, documents w !! id = Some d -> status_ok d)
            _ _ _).
  - done.
  - done.
  - done.
  - intros id d H. cbn in H. by rewrite ?lookup_empty in H.
  - done.
  - intros env rq X e g w o w' Hok _ Hex HP id d Hd.
    apply (literal_status_event _ _ _ o) in Hok.
    apply exec_effect in Hex.
    destruct (event_of e o) as [[]|]; cbn in Hex, Hok;
      try (destruct Hex as [Hdocs _]; rewrite Hdocs in Hd; by eapply HP);
      destruct ok; try (destruct Hex as [Hdocs _]; rewrite Hdocs in Hd; by eapply HP).
    + destruct Hex as (_ & Hdocs & _). rewrite Hdocs in Hd.
      destruct (decide (id0 = id)) as [->|Hne].
      * rewrite lookup_insert_eq in Hd. injection Hd as <-. left. by subst.
      * rewrite lookup_insert_ne in Hd by done. by eapply HP.
    + destruct Hex as (d0 & _ & Hdocs & _). rewrite Hdocs in Hd.
      destruct (decide (id0 = id)) as [->|Hne].
      * rewrite lookup_insert_eq in Hd. injection Hd as <-. by right.
      * rewrite lookup_insert_ne in Hd by done. by eapply HP.
Qed.

(** Every row has an id that some request drew from [uuidv4]. *)
Lemma reachable_ids_drawn s :
  reachable s ->
  forall id d, documents (world s) !! id = Some d ->
  exists rq, (rq, EvUuid id) ∈ trace (world s).
Proof.
  revert s.
  refine (guarded_invariant insert_drawn draw drawn_in []
            handlers_insert_drawn _ _ _
            (fun w => forall id d, documents w !! id = Some d ->
                      exists rq, (rq, EvUuid id) ∈ trace w)
            _ _ _).
  - intros rq tr id H. by apply elem_of_nil in H.
  - apply drawn_in_grow.
  - apply drawn_in_advance.
  - intros id d H. cbn in H. by rewrite ?lookup_empty in H.
  - done.
  - intros env rq X e g w o w' Hok Hj Hex HP id d Hd.
    apply (insert_drawn_event _ _ _ o) in Hok.
    pose proof (exec_trace _ _ _ _ _ _ _ Hex) as [Ht _].
    apply exec_effect in Hex. rewrite Ht.
    assert (documents w !! id = None -> exists rq', (rq', EvUuid id) ∈ trace w)
      as Hnew.
    { intros Hnone.
      destruct (event_of e o) as [[]|]; cbn in Hex, Hok;
        try (destruct Hex as [Hdocs _]; congruence);
        destruct ok; try (destruct Hex as [Hdocs _]; congruence).
      - destruct Hex as (_ & Hdocs & _). rewrite Hdocs in Hd.
        destruct (decide (id0 = id)) as [->|Hne].
        + exists rq. by apply Hj.
        + rewrite lookup_insert_ne in Hd by done. congruence.
      - destruct Hex as (d0 & Hd0 & Hdocs & _). rewrite Hdocs in Hd.
        destruct (decide (id0 = id)) as [->|Hne]; [congruence|].
        rewrite lookup_insert_ne in Hd by done. congruence. }
    destruct (documents w !! id) as [d0|] eqn:Hold.
    + destruct (HP id d0 Hold) as [rq' Hin]. exists rq'.
      apply elem_of_app. by left.
    + destruct (Hnew eq_refl) as [rq' Hin]. exists rq'.
      apply elem_of_app. by left.
Qed.

(** ** The fields saved are the analyzer's *)

Lemma fields_of_saved a : fields_of a (list_or_empty (fields a)).
Proof. unfold fields_of. by destruct (fields a). Qed.

Lemma handlers_save_analysis r w p w' :
  accept r w = (p, w') -> guarded saves_analysis analysed None p.
Proof.
  intros [->|[->|[[id ->]|[[req ->]|[err ->]]]]]%accept_cases;
    unfold get_health, get_documents, get_document, post_upload, store_blob,
      default_error_handler;
    check_guarded.
  all: eexists; split; [reflexivity | apply fields_of_saved].
Qed.

Lemma analysed_in_grow rq g tr tr' :
  analysed_in rq g tr -> analysed_in rq g (tr ++ tr').
Proof.
  intros H a Ha. destruct (H a Ha) as (h & url & filepath & Hh).
  exists h, url, filepath. by apply lookup_app_l_Some.
Qed.

Lemma analysed_in_advance rq g tr X (e : Ext X) o :
  analysed_in rq g tr ->
  analysed_in rq (analysed X e o g) (tr ++ entries rq (event_of e o)).
Proof.
  intros H. destruct e; cbn [analysed]; try by apply analysed_in_grow.
  destruct o as [a|err]; [|by apply analysed_in_grow].
  intros a' [= <-]. exists (length tr), blobUrl, filepath.
  cbn. by rewrite lookup_app_r, Nat.sub_diag.
Qed.

(** The fields of every save are those of an analysis the analyzer
    returned to the same request before. *)
Lemma reachable_saves_follow_analysis s :
  reachable s -> saves_follow_analysis (world s).
Proof.
  revert s.
  refine (guarded_invariant saves_analysis analysed analysed_in None
            handlers_save_analysis _ _ _ saves_follow_analysis _ _ _).
  - by intros rq tr a.
  - apply analysed_in_grow.
  - apply analysed_in_advance.
  - intros i rq id fs ok H. cbn in H. by rewrite lookup_nil in H.
  - done.
  - intros env rq X e g w o w' Hok HJ Hex HP i rq' id fs ok Hi.
    apply exec_trace in Hex as [Ht _]. rewrite Ht in Hi |- *.
    destruct (event_of e o) as [ev|] eqn:Hev; cbn [entries] in *;
      [|rewrite app_nil_r in *; exact (HP i rq' id fs ok Hi)].
    apply lookup_snoc_Some in Hi as [Hi|[-> [= <- <-]]].
    + destruct (HP i rq' id fs ok Hi) as (h & url & filepath & a & Hlt & Hh & Hf).
      exists h, url, filepath, a. split_and!; [done | | done].
      by apply lookup_app_l_Some.
    + destruct e; cbn in Hev; try (destruct o; discriminate Hev); try discriminate Hev.
      injection Hev as <- <- _. cbn in Hok. destruct Hok as (a & -> & Hf).
      destruct (HJ a eq_refl) as (h & url & filepath & Hh).
      exists h, url, filepath, a.
      split_and!; [by eapply lookup_lt_Some | by apply lookup_app_l_Some | done].
Qed.

(** C2: in every state the server can reach, a document whose status
    is [processed] was flipped by an update that the same request made
    after it had saved fields for the document, the fields saved are
    those of the analysis the analyzer had returned to that request,
    and they are in the table; and every flip to [processed] in the
    trace comes after such a save of the same request.  (Requests are
    told apart by their numbers, which are never reused:
    [numbered_reachable].) *)
Theorem processed_only_after_fields_saved s :
  reachable s ->
  (forall id d,
     documents (world s) !! id = Some d -> doc_status d = "processed" ->
     exists h i j rq url filepath a fs ty conf,
       h < i /\ i < j /\
       trace (world s) !! h = Some (rq, EvAnalyze url filepath (Some a)) /\
       trace (world s) !! i = Some (rq, EvSaveExtractedFields id fs true) /\
       trace (world s) !! j
         = Some (rq, EvUpdateDocumentStatus id "processed" ty conf true) /\
       fields_of a fs /\
       forall f, f ∈ fs -> field_row id f ∈ field_rows (world s)) /\
  (forall j rq id ty conf,
     trace (world s) !! j
       = Some (rq, EvUpdateDocumentStatus id "processed" ty conf true) ->
     exists h i url filepath a fs, h < i /\ i < j /\
       trace (world s) !! h = Some (rq, EvAnalyze url filepath (Some a)) /\
       trace (world s) !! i = Some (rq, EvSaveExtractedFields id fs true) /\
       fields_of a fs).
Proof.
  intros Hs. pose proof (reachable_saves_follow_analysis s Hs) as Hfollow.
  apply invariant_reachable in Hs as [_ _ Hsaved Hupdated Hprocessed _].
  assert (forall j rq id ty conf,
            trace (world s) !! j
              = Some (rq, EvUpdateDocumentStatus id "processed" ty conf true) ->
            exists h i url filepath a fs, h < i /\ i < j /\
              trace (world s) !! h = Some (rq, EvAnalyze url filepath (Some a)) /\
              trace (world s) !! i = Some (rq, EvSaveExtractedFields id fs true) /\
              fields_of a fs) as Hflip.
  { intros j rq id ty conf Hj.
    destruct (Hupdated j rq id ty conf Hj) as (i & fs & Hij & Hi).
    destruct (Hfollow i rq id fs true Hi) as (h & url & filepath & a & Hhi & Hh & Hf).
    by exists h, i, url, filepath, a, fs. }
  split; [|exact Hflip].
  intros id d Hd Hst.
  destruct (Hprocessed id d Hd Hst) as (j & rq & ty & conf & Hj).
  destruct (Hflip j rq id ty conf Hj)
    as (h & i & url & filepath & a & fs & Hhi & Hij & Hh & Hi & Hf).
  exists h, i, j, rq, url, filepath, a, fs, ty, conf. split_and!; try done.
  apply (Hsaved rq). by eapply list_elem_of_lookup_2.
Qed.


(** In every state the server can reach, every field row belongs to a
    document of the table. *)
Theorem reachable_store_consistent s :
  reachable s -> store_consistent (world s).
Proof. intros H. by destruct (invariant_reachable s H). Qed.

(** An id that [uuidv4] never returned names no document: reading it
    gives 404 (when the store can be read). *)
Theorem never_issued_id_not_found s env rq id :
  reachable s ->
  Forall (fun e => e.2 <> EvUuid id) (trace (world s)) ->
  store_down env OpGet = false ->
  documents (world s) !! id = None /\
  (serve env rq (GET_document id) (world s)).1
    = Returned (mkResponse 404 (BError "not found")).
Proof.
  intros Hs Hnever Hup.
  assert (documents (world s) !! id = None) as Hnone.
  { destruct (documents (world s) !! id) as [d|] eqn:Hd; [|done].
    destruct (reachable_ids_drawn s Hs id d Hd) as [rq' Hin].
    rewrite Forall_forall in Hnever. by destruct (Hnever _ Hin). }
  split; [done|]. by rewrite get_document_run, Hup, Hnone.
Qed.

(** A request saves fields for, and flips to [processed], only a
    document it inserted itself: each such call comes after the
    successful insert of that id by the same request. *)
Theorem reachable_own_document s :
  reachable s ->
  (forall j rq id fs ok,
     trace (world s) !! j = Some (rq, EvSaveExtractedFields id fs ok) ->
     exists i fname url st, i < j /\
       trace (world s) !! i = Some (rq, EvInsertDocument id fname url st true)) /\
  (forall j rq id ty conf ok,
     trace (world s) !! j
       = Some (rq, EvUpdateDocumentStatus id "processed" ty conf ok) ->
     exists i fname url st, i < j /\
       trace (world s) !! i = Some (rq, EvInsertDocument id fname url st true)).
Proof.
  revert s.
  refine (guarded_invariant in_order_rule advance_rule backed start
            handlers_in_order _ _ _
            (fun w =>
               (forall j rq id fs ok,
                  trace w !! j = Some (rq, EvSaveExtractedFields id fs ok) ->
                  exists i fname url st, i < j /\
                    trace w !! i = Some (rq, EvInsertDocument id fname url st true)) /\
               (forall j rq id ty conf ok,
                  trace w !! j
                    = Some (rq, EvUpdateDocumentStatus id "processed" ty conf ok) ->
                  exists i fname url st, i < j /\
                    trace w !! i = Some (rq, EvInsertDocument id fname url st true)))
            _ _ _).
  - intros rq tr. split; intros id H; by apply elem_of_nil in H.
  - apply backed_grow.
  - apply backed_advance_rule.
  - split; intros j *; cbn; by rewrite lookup_nil.
  - done.
  - intros env rq X e g w o w' Hok [Hins Hsav] Hex [Hsave Hflip].
    apply (in_order_event _ _ _ o) in Hok.
    apply exec_trace in Hex as [Ht _]. rewrite Ht.
    assert (forall id, id ∈ inserted g ->
              exists i fname url st, i < length (trace w) /\
                trace w !! i = Some (rq, EvInsertDocument id fname url st true))
      as Hown.
    { intros id Hid. destruct (Hins id Hid) as (fname & url & st & Hin).
      apply list_elem_of_lookup in Hin as [i Hi].
      exists i, fname, url, st. split; [by eapply lookup_lt_Some | done]. }
    destruct (event_of e o) as [ev|]; cbn [entries];
      [|rewrite app_nil_r; by split].
    split.
    + intros j rq' id fs ok [Hj|[-> [= -> <-]]]%lookup_snoc_Some.
      * destruct (Hsave j rq' id fs ok Hj) as (i & fname & url & st & Hij & Hi).
        exists i, fname, url, st. split; [done|]. by apply lookup_app_l_Some.
      * cbn in Hok. destruct (Hown id Hok) as (i & fname & url & st & Hij & Hi).
        exists i, fname, url, st. split; [done|]. by apply lookup_app_l_Some.
    + intros j rq' id ty conf ok [Hj|[-> [= -> <-]]]%lookup_snoc_Some.
      * destruct (Hflip j rq' id ty conf ok Hj) as (i & fname & url & st & Hij & Hi).
        exists i, fname, url, st. split; [done|]. by apply lookup_app_l_Some.
      * cbn in Hok. destruct (Hsav id (Hok eq_refl)) as (fs & Hin).
        apply list_elem_of_lookup in Hin as [i0 Hi0].
        destruct (Hsave i0 rq id fs true Hi0) as (i & fname & url & st & Hij & Hi).
        exists i, fname, url, st.
        split; [apply lookup_lt_Some in Hi0; lia | by apply lookup_app_l_Some].
Qed.

(* ================================================================== *)
(** * More on the routes *)

(** ** The calls of an upload *)

Lemma run_upload_calls env rq f texts w :
  new_events w (run env rq (post_upload (mkRequest (Some f) texts)) w).2
    = map (pair rq) (upload_calls env f w).
Proof.
  remember (upload_calls env f w) as calls eqn:Hcalls.
  unfold post_upload, store_blob. run_cases.
  all: unfold new_events, log; cbn; rewrite <- ?app_assoc; cbn;
    rewrite drop_app_length.
  all: rewrite Hcalls; clear Hcalls; unfold upload_calls, blob_calls, insert_fails,
    save_fails, update_fails, resolved_url, blob_name;
    use_cases; cbn; use_cases; cbn; use_cases; cbn.
  all: reflexivity.
Qed.

Lemma new_events_upload env rq now p texts w :
  accepts p = true ->
  new_events w (serve env rq (POST_upload now (mkMultipart (Some p) texts)) w).2
    = map (pair rq) (upload_calls env (received now p) w).
Proof.
  intros Hacc.
  rewrite serve_upload by done.
  exact (run_upload_calls env rq (received now p) texts
           (set_disk (<[path (received now p) := part_bytes p]> (disk w)) w)).
Qed.

(** An upload with a file multer lets through makes exactly the calls
    of [upload_calls], in that order: it stops at the first call that throws (the storage
    call apart), logs it, and calls nothing else; no call is repeated
    and nothing is undone. *)
Theorem upload_calls_exact env rq now p texts w :
  accepts p = true ->
  new_events w (serve env rq (POST_upload now (mkMultipart (Some p) texts)) w).2
    = map (pair rq) (upload_calls env (received now p) w).
Proof.
  intros Hacc.
  rewrite serve_upload by done.
  exact (run_upload_calls env rq (received now p) texts
           (set_disk (<[path (received now p) := part_bytes p]> (disk w)) w)).
Qed.

(** ** The read routes, in full *)

Lemma serve_get_health env rq w :
  serve env rq GET_health w = (Returned (mkResponse 200 BHealth), w).
Proof. reflexivity. Qed.

Lemma serve_get_documents env rq w :
  serve env rq GET_documents w =
  if store_down env OpList
  then (Returned (mkResponse 500 (BError "db error")),
        log rq (EvConsoleError store_error) (log rq (EvListDocuments false) w))
  else (Returned (mkResponse 200 (BDocuments (listDocuments (documents w)))),
        log rq (EvListDocuments true) w).
Proof.
  unfold serve, accept, get_documents. cbn.
  unfold exec, perform. by destruct (store_down env OpList).
Qed.

Lemma serve_get_document env rq id w :
  serve env rq (GET_document id) w =
  if store_down env OpGet
  then (Returned (mkResponse 500 (BError "db error")),
        log rq (EvConsoleError store_error) (log rq (EvGetDocument id false) w))
  else
    match documents w !! id with
    | None => (Returned (mkResponse 404 (BError "not found")),
               log rq (EvGetDocument id true) w)
    | Some d =>
        if store_down env OpGetFields
        then (Returned (mkResponse 500 (BError "db error")),
              log rq (EvConsoleError store_error)
                (log rq (EvGetFields id false) (log rq (EvGetDocument id true) w)))
        else (Returned (mkResponse 200 (BDocument d (getFields id (field_rows w)))),
              log rq (EvGetFields id true) (log rq (EvGetDocument id true) w))
    end.
Proof.
  unfold serve, accept, get_document. cbn.
  unfold exec, perform, getDocument. destruct (store_down env OpGet); [done|].
  cbn. destruct (documents w !! id); [|done].
  cbn. unfold exec, perform. cbn. by destruct (store_down env OpGetFields).
Qed.

Lemma new_events_log rq ev w : new_events w (log rq ev w) = [(rq, ev)].
Proof. unfold new_events, log. cbn. by rewrite drop_app_length. Qed.

Lemma new_events_log2 rq ev1 ev2 w :
  new_events w (log rq ev2 (log rq ev1 w)) = [(rq, ev1); (rq, ev2)].
Proof.
  unfold new_events, log. cbn. rewrite <- app_assoc. by rewrite drop_app_length.
Qed.

Lemma new_events_log3 rq ev1 ev2 ev3 w :
  new_events w (log rq ev3 (log rq ev2 (log rq ev1 w)))
    = [(rq, ev1); (rq, ev2); (rq, ev3)].
Proof.
  unfold new_events, log. cbn. rewrite <- !app_assoc. by rewrite drop_app_length.
Qed.

Lemma listDocuments_rows (docs : gmap jsstring Document) :
  (forall d, d ∈ listDocuments docs <-> exists id, docs !! id = Some d) /\
  length (listDocuments docs) = size docs.
Proof.
  split.
  - intros d. unfold listDocuments. rewrite list_elem_of_fmap. split.
    + intros ([id d'] & -> & Hin). exists id. by apply elem_of_map_to_list.
    + intros [id Hid]. exists (id, d). split; [done|].
      by apply elem_of_map_to_list.
  - unfold listDocuments. rewrite length_fmap. by rewrite length_map_to_list.
Qed.

(** [GET /documents] answers 200 with every row of the documents table,
    each once, when the store can be read, and 500 [db error] when it
    cannot. *)
Theorem get_documents_responses env rq w :
  (store_down env OpList = false ->
   exists ds,
     (serve env rq GET_documents w).1 = Returned (mkResponse 200 (BDocuments ds)) /\
     (forall d, d ∈ ds <-> exists id, documents w !! id = Some d) /\
     length ds = size (documents w)) /\
  (store_down env OpList = true ->
   (serve env rq GET_documents w).1
     = Returned (mkResponse 500 (BError "db error"))).
Proof.
  rewrite serve_get_documents. split; intros ->; [|done].
  exists (listDocuments (documents w)).
  destruct (listDocuments_rows (documents w)) as [Hmem Hlen].
  split_and!; [done | exact Hmem | exact Hlen].
Qed.

(** The three read routes change neither the tables nor the upload
    directory, whatever the store does. *)
Theorem reads_change_nothing env rq w :
  same_state w (serve env rq GET_health w).2 /\
  same_state w (serve env rq GET_documents w).2 /\
  (forall id, same_state w (serve env rq (GET_document id) w).2).
Proof.
  split_and!.
  - by rewrite serve_get_health.
  - rewrite serve_get_documents. by destruct (store_down env OpList).
  - intros id. rewrite serve_get_document.
    destruct (store_down env OpGet); [done|].
    destruct (documents w !! id); [|done].
    by destruct (store_down env OpGetFields).
Qed.

(** ** Every request is answered *)

Lemma response_after_cases env f w :
  (exists a, response_after env f w = mkResponse 200 (BUploaded (uuid env) a))
  \/ response_after env f w = mkResponse 500 (BError "upload failed").
Proof.
  unfold response_after. destruct (upload_fails env f w); [by right|].
  destruct (analyze env (resolved_url env f) (path f)) as [a|]; [|by right].
  left. by exists a.
Qed.

(** No exception leaves a handler.  A request that reaches its handler
    gets one of the responses of its route, and the text of a thrown
    error is never part of it.  An upload multer refuses does not reach
    the handler: Express answers it with 500 and a page made from the
    error. *)
Theorem every_request_is_answered env rq r w :
  exists resp, (serve env rq r w).1 = Returned resp /\
    if refused r then resp = mkResponse 500 (BErrorPage "Unexpected field")
    else answers r resp.
Proof.
  destruct r as [| |id|now [[p|] texts]]; cbn [refused file_part].
  4: destruct (file_part_cases p) as [Hacc|[Href|Hskip]].
  5: { rewrite serve_upload_refused, Href by done. by eexists. }
  5: { rewrite serve_upload_skipped by done.
       unfold refuses. rewrite Hskip. cbn. eauto. }
  4: replace (refuses p) with false
       by (revert Hacc; unfold accepts, refuses;
           by destruct (truthy_str _), (bool_decide _)).
  - rewrite serve_get_health. by eexists.
  - rewrite serve_get_documents.
    destruct (store_down env OpList); eexists; (split; [done|]); cbn; eauto.
  - rewrite serve_get_document.
    destruct (store_down env OpGet); [eexists; split; [done|]; cbn; eauto|].
    destruct (documents w !! id);
      [destruct (store_down env OpGetFields)|];
      eexists; (split; [done|]); cbn; eauto.
  - rewrite serve_upload by done. set (f := received now p). set (w0 := set_disk _ w).
    destruct (upload_run env rq f texts w0) as (Hout & _). rewrite Hout.
    destruct (response_after_cases env f w0) as [[a ->]| ->];
      eexists; (split; [done|]); cbn; eauto.
  - eexists. split; [reflexivity|]. cbn. eauto.
Qed.

(** An upload with a file multer lets through is answered 200 with the
    id drawn and the analyzer's result exactly when none of insert, analyzer, save and
    update throws. *)
Theorem upload_response_iff env rq now p texts w id a :
  accepts p = true ->
  (serve env rq (POST_upload now (mkMultipart (Some p) texts)) w).1
    = Returned (mkResponse 200 (BUploaded id a))
  <->
  upload_fails env (received now p) w = false /\
  id = uuid env /\
  analyze env (resolved_url env (received now p)) (path (received now p))
    = Returned a.
Proof.
  intros Hacc.
  rewrite serve_upload by done. set (f := received now p). set (w0 := set_disk _ w).
  destruct (upload_run env rq f texts w0) as (Hout & _). rewrite Hout.
  change (upload_fails env f w) with (upload_fails env f w0).
  split.
  - intros [= H]. by apply response_after_200.
  - intros (Hok & -> & Ha).
    apply upload_succeeds in Hok as (_ & a' & Ha' & -> & _). congruence.
Qed.

(** ** Order of the calls of an upload *)

Ltac no_such_event H :=
  repeat (apply elem_of_cons in H as [H|H]; [try discriminate H|]);
  try (by apply elem_of_nil in H).

(** For a file multer lets through, the analyzer is called exactly
    when the insert returned, the fields are saved exactly when the analyzer returned too, and the
    status is updated exactly when the save returned too. *)
Theorem upload_call_order env rq now p texts w :
  accepts p = true ->
  let f := received now p in
  let evs :=
    new_events w
      (serve env rq (POST_upload now (mkMultipart (Some p) texts)) w).2 in
  ((exists url filepath ok, (rq, EvAnalyze url filepath ok) ∈ evs)
     <-> insert_fails env w = false) /\
  ((exists id fs ok, (rq, EvSaveExtractedFields id fs ok) ∈ evs)
     <-> insert_fails env w = false /\ analyze_fails env f = false) /\
  ((exists id st ty conf ok, (rq, EvUpdateDocumentStatus id st ty conf ok) ∈ evs)
     <-> insert_fails env w = false /\ analyze_fails env f = false
         /\ save_fails env = false).
Proof.
  intros Hacc.
  cbn zeta. rewrite new_events_upload by done. set (f := received now p).
  unfold upload_calls, blob_calls, analyze_fails.
  destruct (truthy_env (connection_string env));
    [destruct (uploadLocalFile env (path f) (blob_name f))|];
    (destruct (insert_fails env w);
     [|destruct (analyze env (resolved_url env f) (path f));
       [destruct (save_fails env); [|destruct (update_fails env)]|]]);
    cbn; split_and!; split;
    try (intros (? & ? & ? & ? & ? & H); no_such_event H);
    try (intros (? & ? & ? & H); no_such_event H);
    try (intros [? ?]; discriminate); try (intros (? & ? & ?); discriminate);
    try discriminate; try done;
    intros; try (do 5 eexists; find_event); try (do 3 eexists; find_event).
Qed.

Lemma logged_after_blob (rq : nat) env f (rest : list Event) :
  (exists msg, EvConsoleError msg ∈ rest) ->
  exists msg, (rq, EvConsoleError msg)
                ∈ map (pair rq) (EvUuid (uuid env) :: blob_calls env f ++ rest).
Proof.
  intros [msg H]. exists msg. apply list_elem_of_fmap.
  exists (EvConsoleError msg). split; [done|].
  apply list_elem_of_further, elem_of_app. by right.
Qed.

(** Whenever the answer is 500 the error has been passed to
    [console.error]. *)
Theorem every_500_is_logged env rq r w resp :
  (serve env rq r w).1 = Returned resp ->
  code resp = 500 ->
  exists msg, (rq, EvConsoleError msg) ∈ new_events w (serve env rq r w).2.
Proof.
  destruct r as [| |id|now [[p|] texts]].
  - rewrite serve_get_health. by intros [= <-].
  - rewrite serve_get_documents. destruct (store_down env OpList).
    + intros _ _. exists store_error. cbn [snd]. rewrite new_events_log2. find_event.
    + by intros [= <-].
  - rewrite serve_get_document. destruct (store_down env OpGet).
    + intros _ _. exists store_error. cbn [snd]. rewrite new_events_log2. find_event.
    + destruct (documents w !! id); [destruct (store_down env OpGetFields)|].
      * intros _ _. exists store_error. cbn [snd]. rewrite new_events_log3. find_event.
      * by intros [= <-].
      * by intros [= <-].
  - destruct (file_part_cases p) as [Hacc|[Href|Hskip]].
    2: { rewrite serve_upload_refused by done. intros _ _.
         eexists. cbn [snd]. rewrite new_events_log. find_event. }
    2: { rewrite serve_upload_skipped by done. by intros [= <-]. }
    rewrite new_events_upload by done. rewrite serve_upload by done.
    set (f := received now p). set (w0 := set_disk _ w).
    destruct (upload_run env rq f texts w0) as (Hout & _). rewrite Hout.
    intros [= <-] H500. apply logged_after_blob.
    revert H500. unfold response_after, upload_fails,
      analyze_fails.
    change (insert_fails env w0) with (insert_fails env w).
    destruct (insert_fails env w); [intros _; eexists; find_event|].
    destruct (analyze env (resolved_url env f) (path f)); cbn;
      [|intros _; eexists; find_event].
    destruct (save_fails env); cbn; [intros _; eexists; find_event|].
    destruct (update_fails env); cbn; [|discriminate].
    intros _; eexists; find_event.
  - cbn. by intros [= <-].
Qed.

(** ** The storage step when the blob upload returns *)

Lemma blob_name_received now p :
  blob_name (received now p) = filename (received now p).
Proof.
  unfold blob_name. cbn. unfold storage_filename.
  by destruct (decimal now).
Qed.

(** For a file multer lets through, with a connection string set and
    the blob upload returning a URL, the blob is uploaded from the local path under the stored file
    name, the row is inserted with that URL as [blob_url], the analyzer
    gets the URL together with the local path, and the local file stays
    on disk. *)
Theorem cloud_upload_url_used env rq now p texts w remoteUrl :
  accepts p = true ->
  truthy_env (connection_string env) = true ->
  uploadLocalFile env (path (received now p)) (filename (received now p))
    = Returned remoteUrl ->
  let evs :=
    new_events w
      (serve env rq (POST_upload now (mkMultipart (Some p) texts)) w).2 in
  let w' := (serve env rq (POST_upload now (mkMultipart (Some p) texts)) w).2 in
  (rq, EvUploadLocalFile (path (received now p))
         (filename (received now p)) true) ∈ evs /\
  (rq, EvInsertDocument (uuid env) (originalname (received now p)) remoteUrl "processing"
         (negb (insert_fails env w))) ∈ evs /\
  (forall rq' url filepath ok,
     (rq', EvAnalyze url filepath ok) ∈ evs ->
     url = remoteUrl /\ filepath = path (received now p)) /\
  (insert_fails env w = false ->
   exists d, documents w' !! uuid env = Some d /\ doc_blob_url d = remoteUrl) /\
  disk w' !! path (received now p) = Some (part_bytes p).
Proof.
  intros Hacc.
  intros Hconn Hblob. cbn zeta.
  assert (resolved_url env (received now p) = remoteUrl) as Hurl.
  { unfold resolved_url. by rewrite Hconn, blob_name_received, Hblob. }
  destruct (serve env rq (POST_upload now (mkMultipart (Some p) texts)) w)
    as [out w'] eqn:Hrun. cbn [snd].
  destruct (upload_new_events _ _ _ _ _ _ _ _ Hacc Hrun) as [Hall Hins].
  split_and!.
  - pose proof (new_events_upload env rq now p texts w Hacc) as Hcalls.
    rewrite Hrun in Hcalls. cbn [snd] in Hcalls. rewrite Hcalls.
    unfold upload_calls, blob_calls.
    rewrite Hconn, blob_name_received, Hblob. cbn. find_event.
  - by rewrite Hurl in Hins.
  - intros rq' url filepath ok He. apply Hall in He as [-> ->]. by rewrite Hurl.
  - intros Hfree.
    destruct (upload_row _ _ _ _ _ _ _ _ Hacc Hrun Hfree) as (d & Hd & _ & _ & Hb).
    exists d. split; [done|]. by rewrite Hb.
  - revert Hrun. rewrite serve_upload by done.
    set (f := received now p). set (w0 := set_disk _ w). intros Hrun.
    destruct (upload_run env rq f texts w0) as (_ & Hdisk & _).
    rewrite Hrun in Hdisk. cbn [snd] in Hdisk. rewrite Hdisk.
    subst w0. cbn [disk set_disk]. by rewrite lookup_insert_eq.
Qed.

(** ** Uploads and the documents already there *)

Lemma getFields_other id id' fs :
  id' <> id -> getFields id (map (field_row id') fs) = [].
Proof.
  intros Hne. apply getFields_none.
  intros r Hr. apply list_elem_of_fmap in Hr as (f & -> & _). done.
Qed.

(** No request, however it ends, changes a document that is already in
    the table, or the fields read for it: not even an upload whose id
    collides with it. *)
Theorem served_request_preserves_documents env rq r w id d :
  documents w !! id = Some d ->
  documents (serve env rq r w).2 !! id = Some d /\
  getFields id (field_rows (serve env rq r w).2) = getFields id (field_rows w).
Proof.
  intros Hd.
  destruct r as [| |id'|now [[p|] texts]].
  - by rewrite serve_get_health.
  - rewrite serve_get_documents. by destruct (store_down env OpList).
  - rewrite serve_get_document.
    destruct (store_down env OpGet); [done|].
    destruct (documents w !! id'); [|done].
    by destruct (store_down env OpGetFields).
  - destruct (file_part_cases p) as [Hacc|[Href|Hskip]].
    2: by rewrite serve_upload_refused.
    2: by rewrite serve_upload_skipped.
    rewrite serve_upload by done. set (f := received now p). set (w0 := set_disk _ w).
    destruct (upload_run env rq f texts w0) as (_ & _ & -> & ->).
    unfold documents_after, field_rows_after,
      processing_row.
    change (insert_fails env w0) with (insert_fails env w).
    change (documents w0) with (documents w).
    change (field_rows w0) with (field_rows w).
    destruct (insert_fails env w) eqn:Hins; [done|].
    assert (uuid env <> id) as Hne.
    { intros Heq. unfold insert_fails in Hins. rewrite Heq, Hd in Hins.
      by rewrite orb_true_r in Hins. }
    split.
    + destruct (analyze env (resolved_url env f) (path f));
        [destruct (save_fails env || update_fails env)|];
        by rewrite lookup_insert_ne.
    + cbn. destruct (analyze_fails env f || save_fails env); [done|].
      by rewrite getFields_app, getFields_other, app_nil_r.
  - done.
Qed.

(** After a successful upload, [GET /documents] lists one document
    more than before, among them the new row, [processed]. *)
Theorem upload_then_get_documents env rq now m w id a w1 env' rq' :
  serve env rq (POST_upload now m) w
    = (Returned (mkResponse 200 (BUploaded id a)), w1) ->
  store_down env' OpList = false ->
  exists ds d,
    (serve env' rq' GET_documents w1).1
      = Returned (mkResponse 200 (BDocuments ds)) /\
    length ds = S (size (documents w)) /\
    d ∈ ds /\ doc_id d = id /\ doc_status d = "processed".
Proof.
  intros Hrun Hup.
  destruct (upload_200_accepted _ _ _ _ _ _ _ _ Hrun) as (p & Hp & Hacc).
  destruct m as [fp texts]. cbn in Hp. subst fp.
  pose proof (upload_persists _ _ _ _ _ _ _ _ _ Hrun) as [Hrow _].
  revert Hrun. rewrite serve_upload by done.
  set (f := received now p). set (w0 := set_disk _ w). intros Hrun.
  destruct (upload_run env rq f texts w0) as (Hout & _ & Hdocs & _).
  rewrite Hrun in Hout, Hdocs. cbn [fst snd] in *.
  injection Hout as Hout. symmetry in Hout.
  apply response_after_200 in Hout as (Hok & -> & Ha).
  apply upload_succeeds in Hok as (Hfree & a' & Ha' & _ & Hdocs' & _).
  rewrite Hdocs' in Hdocs.
  destruct (listDocuments_rows (documents w1)) as [Hmem Hlen].
  assert ((serve env' rq' GET_documents w1).1
            = Returned (mkResponse 200 (BDocuments (listDocuments (documents w1)))))
    as Hresp.
  { by rewrite serve_get_documents, Hup. }
  exists (listDocuments (documents w1)), (mkDocument (uuid env) (originalname (received now p))
                (resolved_url env (received now p)) "processed"
                (str_or_null (documentType a)) (num_or_null (confidence a))).
  split_and!; [exact Hresp | | | reflexivity | reflexivity].
  - rewrite Hlen, Hdocs. by apply map_size_insert_None.
  - apply Hmem. by exists (uuid env).
Qed.

(* ================================================================== *)
(** * More on file naming *)

Lemma js_inj s1 s2 : js s1 = js s2 -> s1 = s2.
Proof.
  revert s2. induction s1 as [|a s1 IH]; intros [|b s2]; cbn; try done.
  intros [= Hab Hs]. f_equal; [|by apply IH].
  by rewrite <- (ascii_N_embedding a), <- (ascii_N_embedding b), Hab.
Qed.

Lemma digits_of_uint d :
  Forall (fun c => is_digit c = true) (js (NilEmpty.string_of_uint d)).
Proof. induction d; cbn; by constructor. Qed.

Lemma to_uint_nonnil n : N.to_uint n <> Decimal.Nil.
Proof.
  destruct n as [|q]; [done|]. cbn. apply DecimalPos.Unsigned.to_uint_nonnil.
Qed.

(** The timestamp is written with digits only, at least one. *)
Lemma decimal_digits n :
  decimal n <> [] /\ Forall (fun c => is_digit c = true) (decimal n).
Proof.
  unfold decimal, NilZero.string_of_uint.
  pose proof (to_uint_nonnil n) as Hn. pose proof (digits_of_uint (N.to_uint n)) as Hd.
  destruct (N.to_uint n); try done; split; try done; cbn; discriminate.
Qed.

Lemma decimal_inj n1 n2 : decimal n1 = decimal n2 -> n1 = n2.
Proof.
  unfold decimal. intros H%js_inj. apply DecimalN.Unsigned.to_uint_inj.
  pose proof (NilZero.usu _ (to_uint_nonnil n1)) as H1.
  pose proof (NilZero.usu _ (to_uint_nonnil n2)) as H2.
  rewrite H in H1. congruence.
Qed.

Lemma is_digit_not_ws c : is_digit c = true -> is_ws c = false.
Proof.
  unfold is_digit, is_ws. intros [H1 H2]%andb_prop.
  apply N.leb_le in H1. apply N.leb_le in H2.
  repeat match goal with
         | |- context [(?a <=? ?b)%N] =>
             destruct (N.leb_spec a b); try lia
         | |- context [(?a =? ?b)%N] =>
             destruct (N.eqb_spec a b); try lia
         end.
  all: reflexivity.
Qed.

(** Splitting at the first underscore after the digits. *)
Lemma digits_underscore_inj (l1 l2 r1 r2 : jsstring) :
  Forall (fun c => is_digit c = true) l1 ->
  Forall (fun c => is_digit c = true) l2 ->
  l1 ++ underscore :: r1 = l2 ++ underscore :: r2 ->
  l1 = l2 /\ r1 = r2.
Proof.
  intros H1. revert l2. induction H1 as [|c l1 Hc _ IH]; intros l2 H2 Heq.
  - destruct H2 as [|c l2 Hc _]; cbn in Heq; [by injection Heq|].
    injection Heq as <- _. done.
  - destruct H2 as [|c' l2 Hc' H2]; cbn in Heq.
    + injection Heq as -> _. done.
    + injection Heq as -> Heq. destruct (IH l2 H2 Heq) as [-> ->]. done.
Qed.

(** The stored name has no whitespace in it, and an original name
    without whitespace is kept as it is after the timestamp. *)
Theorem stored_name_has_no_whitespace now originalname :
  Forall (fun c => is_ws c = false) (storage_filename now originalname) /\
  (Forall (fun c => is_ws c = false) originalname ->
   storage_filename now originalname = decimal now ++ js "_" ++ originalname).
Proof.
  unfold storage_filename. split.
  - rewrite !Forall_app. split_and!.
    + destruct (decimal_digits now) as [_ Hd].
      eapply Forall_impl; [exact Hd|]. intros c. apply is_digit_not_ws.
    + by repeat constructor.
    + apply replace_ws_clean.
  - intros H. by rewrite replace_ws_id.
Qed.

(** Two uploads get the same stored name exactly when they arrive in
    the same millisecond with names that agree once their whitespace
    runs are replaced. *)
Theorem stored_name_collision now1 name1 now2 name2 :
  storage_filename now1 name1 = storage_filename now2 name2
  <-> now1 = now2 /\ replace_ws name1 = replace_ws name2.
Proof.
  unfold storage_filename. split.
  - intros H.
    destruct (digits_underscore_inj (decimal now1) (decimal now2)
                (replace_ws name1) (replace_ws name2)) as [Hn Hr]; try done.
    + apply decimal_digits.
    + apply decimal_digits.
    + split; [by apply decimal_inj | done].
  - by intros [-> ->].
Qed.

(* ================================================================== *)
(** * Uploads that do not reach the storage *)


End Gateway.

(* ================================================================== *)
(** * The concrete deployment *)

Abbreviation demo_serve := (serve demo_dir posix_join posix_basename).
Abbreviation demo_file := (received demo_dir posix_join demo_now demo_part).

Example demo_file_name : filename demo_file = js "1700000000000_my_fax_1.pdf".
Proof. reflexivity. Qed.

Example demo_file_path :
  path demo_file = js "/srv/backend/uploads/1700000000000_my_fax_1.pdf".
Proof. reflexivity. Qed.

(** C8: the analyzer returns a confidence of [0] (present in its
    result); the upload succeeds and the row is [processed], but the
    confidence persisted is null: [analysis.confidence || null] takes
    the zero for an absent value. *)
Theorem zero_confidence_stored_as_null :
  let r := demo_serve demo_env_zero_confidence 0 demo_upload empty_world in
  r.1 = Returned (mkResponse 200 (BUploaded (js "3f0c") zero_confidence_analysis)) /\
  confidence zero_confidence_analysis = Some 0%float /\
  doc_status <$> documents r.2 !! js "3f0c" = Some "processed" /\
  doc_confidence <$> documents r.2 !! js "3f0c" = Some None.
Proof. vm_compute. split_and!; reflexivity. Qed.

(** A successful upload followed by a read of the returned id. *)
Lemma upload_then_get_document_witness :
  exists d,
    (demo_serve demo_env 1 (GET_document (js "3f0c"))
       (demo_serve demo_env 0 demo_upload empty_world).2).1 =
      Returned (mkResponse 200
        (BDocument d (getFields (js "3f0c") (field_rows empty_world)
                      ++ map (field_row (js "3f0c"))
                           (list_or_empty (fields demo_analysis))))) /\
    doc_id d = js "3f0c" /\
    doc_status d = "processed" /\
    (store_consistent empty_world ->
     getFields (js "3f0c") (field_rows empty_world) = []).
Proof.
  apply (upload_then_get_document demo_dir posix_join posix_basename
           demo_env 0 demo_now (mkMultipart (Some demo_part) demo_texts)
           empty_world (js "3f0c") demo_analysis
           (demo_serve demo_env 0 demo_upload empty_world).2 demo_env 1).
  - vm_compute. reflexivity.
  - reflexivity.
  - reflexivity.
Defined.

(** The server after one upload served from boot. *)
Lemma processed_only_after_fields_saved_witness :
  exists h i j rq url filepath a fs ty conf,
    h < i /\ i < j /\
    trace (demo_serve demo_env 0 demo_upload empty_world).2 !! h
      = Some (rq, EvAnalyze url filepath (Some a)) /\
    trace (demo_serve demo_env 0 demo_upload empty_world).2 !! i
      = Some (rq, EvSaveExtractedFields (js "3f0c") fs true) /\
    trace (demo_serve demo_env 0 demo_upload empty_world).2 !! j
      = Some (rq, EvUpdateDocumentStatus (js "3f0c") "processed" ty conf true) /\
    fields_of a fs /\
    forall f, f ∈ fs ->
      field_row (js "3f0c") f
        ∈ field_rows (demo_serve demo_env 0 demo_upload empty_world).2.
Proof.
  eapply (proj1 (processed_only_after_fields_saved demo_dir posix_join
                   posix_basename
                   (mkServer (demo_serve demo_env 0 demo_upload empty_world).2 [] 1)
                   (serve_reachable demo_dir posix_join posix_basename
                      demo_env demo_upload boot (rtc_refl _ _)))
            (js "3f0c")).
  - vm_compute. reflexivity.
  - reflexivity.
Defined.

(** An upload whose analysis fails. *)
Lemma upload_failure_leaves_state_witness :
  (demo_serve demo_env_analyzer_down 0 demo_upload empty_world).1
    = Returned (mkResponse 500 (BError "upload failed")) /\
  disk (demo_serve demo_env_analyzer_down 0 demo_upload empty_world).2
    !! path demo_file = Some (part_bytes demo_part) /\
  documents (demo_serve demo_env_analyzer_down 0 demo_upload empty_world).2
    !! js "3f0c"
    = Some (mkDocument (js "3f0c") (js "my  fax 1.pdf") (path demo_file)
              "processing" None None) /\
  field_rows (demo_serve demo_env_analyzer_down 0 demo_upload empty_world).2 = [].
Proof.
  destruct (upload_failure_leaves_state demo_dir posix_join posix_basename
              demo_env_analyzer_down 0 demo_now demo_part demo_texts empty_world
              _ _ eq_refl (surjective_pairing _) eq_refl)
    as (Hout & _ & Hdisk & Hdocs & Hrows).
  split_and!.
  - exact Hout.
  - exact Hdisk.
  - unfold demo_upload. rewrite Hdocs. vm_compute. reflexivity.
  - exact Hrows.
Defined.

(** An upload with storage configured and the blob service down. *)
Lemma blob_failure_falls_back_witness :
  (exists a,
     (demo_serve demo_env_blob_down 0 demo_upload empty_world).1
       = Returned (mkResponse 200 (BUploaded (js "3f0c") a))) /\
  (exists d,
     documents (demo_serve demo_env_blob_down 0 demo_upload empty_world).2
       !! js "3f0c" = Some d /\
     doc_blob_url d = path demo_file).
Proof.
  destruct (blob_failure_falls_back demo_dir posix_join posix_basename
              demo_env_blob_down 0 demo_now demo_part demo_texts empty_world
              _ _ eq_refl (surjective_pairing _) eq_refl)
    as (_ & _ & Hrow & _ & Hok).
  split; [exact (Hok eq_refl) | exact (Hrow eq_refl)].
Defined.

(** The three answers of the read handler. *)
Lemma get_document_responses_witness :
  (demo_serve demo_env 0 (GET_document (js "3f0c")) empty_world).1
    = Returned (mkResponse 404 (BError "not found")) /\
  (demo_serve demo_env_store_down 0 (GET_document (js "3f0c")) empty_world).1
    = Returned (mkResponse 500 (BError "db error")).
Proof.
  split.
  - apply (proj1 (get_document_responses demo_dir posix_join posix_basename
                    demo_env 0 (js "3f0c") empty_world)); reflexivity.
  - apply (proj2 (proj2 (get_document_responses demo_dir posix_join
                           posix_basename demo_env_store_down 0 (js "3f0c")
                           empty_world))).
    left. reflexivity.
Defined.

(** An upload with no storage configured. *)
Lemma local_path_without_storage_witness :
  exists d,
    documents (demo_serve demo_env 0 demo_upload empty_world).2 !! js "3f0c"
      = Some d /\
    doc_blob_url d = path demo_file.
Proof.
  destruct (local_path_without_storage demo_dir posix_join posix_basename
              demo_env 0 demo_now demo_part demo_texts empty_world
              _ _ eq_refl (surjective_pairing _))
    as [Hlocal _].
  destruct (Hlocal eq_refl) as (_ & _ & Hrow).
  exact (Hrow eq_refl).
Defined.

(** The name on disk and the name in the row, for a file sent with a
    directory in its name. *)
Lemma stored_name_and_original_name_witness :
  directory_stripped (js "dir/a b.pdf") (js "a b.pdf") /\
  filename (received demo_dir posix_join demo_now demo_part_in_dir)
    = js "1700000000000_a_b.pdf" /\
  disk (demo_serve demo_env 0 demo_upload_in_dir empty_world).2
    !! js "/srv/backend/uploads/1700000000000_a_b.pdf"
    = Some (part_bytes demo_part_in_dir) /\
  (exists d,
     documents (demo_serve demo_env 0 demo_upload_in_dir empty_world).2
       !! js "3f0c" = Some d /\
     doc_filename d = js "a b.pdf").
Proof.
  destruct (stored_name_and_original_name demo_dir posix_join posix_basename
              demo_env 0 demo_now demo_part_in_dir demo_texts empty_world
              _ _ eq_refl (surjective_pairing _))
    as (_ & Hstrip & Hname & _ & Hdisk & _ & Hrow & _).
  split_and!; [exact Hstrip | exact Hname | exact Hdisk | exact (Hrow eq_refl)].
Defined.

(** C9 as the specification words it fails for that file: the name in the row is
    not the name the client sent, and the name on disk is not made from
    it. *)
Lemma stored_name_and_original_name_counterexample :
  part_filename demo_part_in_dir = js "dir/a b.pdf" /\
  (demo_serve demo_env 0 demo_upload_in_dir empty_world).1
    = Returned (mkResponse 200 (BUploaded (js "3f0c") demo_analysis)) /\
  doc_filename <$>
    documents (demo_serve demo_env 0 demo_upload_in_dir empty_world).2
      !! js "3f0c" = Some (js "a b.pdf") /\
  bool_decide (js "a b.pdf" = part_filename demo_part_in_dir) = false /\
  disk (demo_serve demo_env 0 demo_upload_in_dir empty_world).2
    !! js "/srv/backend/uploads/1700000000000_a_b.pdf"
    = Some (part_bytes demo_part_in_dir) /\
  bool_decide
    (js "/srv/backend/uploads/1700000000000_a_b.pdf"
     = posix_join demo_dir
         (decimal demo_now ++ js "_"
          ++ underscore_runs (part_filename demo_part_in_dir))) = false.
Proof. split_and!; vm_compute; reflexivity. Qed.

(** A request with text fields only. *)
Lemma upload_without_file_is_400_witness :
  (demo_serve demo_env 0 demo_upload_no_file empty_world).1
    = Returned (mkResponse 400 (BError "no file uploaded")).
Proof.
  apply (upload_without_file_is_400 demo_dir posix_join posix_basename
           demo_env 0 demo_now (mkMultipart None demo_texts) empty_world).
  reflexivity.
Defined.

Lemma upload_without_file_touches_nothing_witness :
  (demo_serve demo_env 0 demo_upload_no_file empty_world).2 = empty_world /\
  new_events empty_world
    (demo_serve demo_env 0 demo_upload_no_file empty_world).2 = [].
Proof.
  destruct (upload_without_file_touches_nothing demo_dir posix_join
              posix_basename demo_env 0 demo_now
              (mkMultipart None demo_texts) empty_world eq_refl)
    as (Hworld & Hevents & _).
  split; [exact Hworld | exact Hevents].
Defined.

(* ================================================================== *)
(** * The concrete deployment, continued *)

(** The world after one upload served from boot. *)
Abbreviation demo_world := (demo_serve demo_env 0 demo_upload empty_world).2.

Lemma demo_world_reachable :
  reachable demo_dir posix_join posix_basename (mkServer demo_world [] 1).
Proof.
  exact (serve_reachable demo_dir posix_join posix_basename demo_env
           demo_upload boot (rtc_refl _ _)).
Qed.

Example demo_calls :
  (new_events empty_world demo_world).*2 =
  [EvUuid (js "3f0c");
   EvInsertDocument (js "3f0c") (js "my  fax 1.pdf") (path demo_file)
     "processing" true;
   EvAnalyze (path demo_file) (path demo_file) (Some demo_analysis);
   EvSaveExtractedFields (js "3f0c") [mkField (js "total") (js "12.50")] true;
   EvUpdateDocumentStatus (js "3f0c") "processed" (Some (js "invoice"))
     (Some 0.75%float) true].
Proof. vm_compute. reflexivity. Qed.

Lemma reachable_store_consistent_witness :
  store_consistent demo_world /\ length (field_rows demo_world) = 1.
Proof.
  split; [|reflexivity].
  exact (reachable_store_consistent demo_dir posix_join posix_basename
           (mkServer demo_world [] 1) demo_world_reachable).
Defined.

Lemma reachable_status_witness :
  exists d, documents demo_world !! js "3f0c" = Some d /\ status_ok d.
Proof.
  eexists. split; [vm_compute; reflexivity|].
  eapply (reachable_status demo_dir posix_join posix_basename
            (mkServer demo_world [] 1) demo_world_reachable (js "3f0c")).
  vm_compute. reflexivity.
Defined.

Lemma reachable_own_document_witness :
  exists i fname url st,
    i < 4 /\
    trace demo_world !! i
      = Some (0, EvInsertDocument (js "3f0c") fname url st true).
Proof.
  eapply (proj2 (reachable_own_document demo_dir posix_join posix_basename
                   (mkServer demo_world [] 1) demo_world_reachable)
            4 0 (js "3f0c")).
  vm_compute. reflexivity.
Defined.

Lemma never_issued_id_not_found_witness :
  documents demo_world !! js "0000" = None /\
  (demo_serve demo_env 1 (GET_document (js "0000")) demo_world).1
    = Returned (mkResponse 404 (BError "not found")).
Proof.
  apply (never_issued_id_not_found demo_dir posix_join posix_basename
           (mkServer demo_world [] 1) demo_env 1 (js "0000")
           demo_world_reachable).
  - vm_compute. repeat (constructor; [discriminate|]). constructor.
  - reflexivity.
Defined.

Lemma every_500_is_logged_witness :
  exists msg,
    (0, EvConsoleError msg)
      ∈ new_events empty_world
          (demo_serve demo_env_analyzer_down 0 demo_upload empty_world).2.
Proof.
  apply (every_500_is_logged demo_dir posix_join posix_basename
           demo_env_analyzer_down 0 demo_upload empty_world
           (mkResponse 500 (BError "upload failed"))).
  - vm_compute. reflexivity.
  - reflexivity.
Defined.

Lemma cloud_upload_url_used_witness :
  exists d,
    documents (demo_serve demo_env_cloud 0 demo_upload empty_world).2
      !! js "3f0c" = Some d /\
    doc_blob_url d = demo_remote_url.
Proof.
  destruct (cloud_upload_url_used demo_dir posix_join posix_basename
              demo_env_cloud 0 demo_now demo_part demo_texts empty_world
              demo_remote_url eq_refl eq_refl eq_refl)
    as (_ & _ & _ & Hrow & _).
  exact (Hrow eq_refl).
Defined.

(** A second upload that draws the same id again. *)
Lemma served_request_preserves_documents_witness :
  exists d,
    documents demo_world !! js "3f0c" = Some d /\
    documents (demo_serve demo_env 1 demo_upload demo_world).2 !! js "3f0c"
      = Some d /\
    getFields (js "3f0c")
      (field_rows (demo_serve demo_env 1 demo_upload demo_world).2)
      = getFields (js "3f0c") (field_rows demo_world).
Proof.
  eexists. split; [vm_compute; reflexivity|].
  apply (served_request_preserves_documents demo_dir posix_join posix_basename
           demo_env 1 demo_upload demo_world (js "3f0c")).
  vm_compute. reflexivity.
Defined.

Lemma upload_then_get_documents_witness :
  exists ds d,
    (demo_serve demo_env 1 GET_documents demo_world).1
      = Returned (mkResponse 200 (BDocuments ds)) /\
    length ds = S (size (documents empty_world)) /\
    d ∈ ds /\ doc_id d = js "3f0c" /\ doc_status d = "processed".
Proof.
  apply (upload_then_get_documents demo_dir posix_join posix_basename
           demo_env 0 demo_now (mkMultipart (Some demo_part) demo_texts)
           empty_world (js "3f0c") demo_analysis demo_world demo_env 1).
  - vm_compute. reflexivity.
  - reflexivity.
Defined.

(** The calls of the upload, in full. *)
Lemma upload_calls_exact_witness :
  new_events empty_world demo_world
    = map (pair 0) (upload_calls posix_basename demo_env demo_file empty_world).
Proof.
  exact (upload_calls_exact demo_dir posix_join posix_basename
           demo_env 0 demo_now demo_part demo_texts empty_world eq_refl).
Defined.

(** With the analyzer down the handler stops after the analyzer call. *)
Lemma upload_call_order_witness :
  (exists url filepath ok,
     (0, EvAnalyze url filepath ok)
       ∈ new_events empty_world
           (demo_serve demo_env_analyzer_down 0 demo_upload empty_world).2) /\
  insert_fails demo_env_analyzer_down empty_world = false /\
  analyze_fails posix_basename demo_env_analyzer_down demo_file = true.
Proof.
  destruct (upload_call_order demo_dir posix_join posix_basename
              demo_env_analyzer_down 0 demo_now demo_part demo_texts
              empty_world eq_refl)
    as ([_ Hcalled] & _ & _).
  split_and!; [exact (Hcalled eq_refl) | reflexivity | reflexivity].
Defined.

Lemma upload_response_iff_witness :
  (demo_serve demo_env 0 demo_upload empty_world).1
    = Returned (mkResponse 200 (BUploaded (js "3f0c") demo_analysis)).
Proof.
  apply (upload_response_iff demo_dir posix_join posix_basename
           demo_env 0 demo_now demo_part demo_texts empty_world
           (js "3f0c") demo_analysis eq_refl).
  split_and!; reflexivity.
Defined.

